(** * DiffWatch: the change-reconciliation engine

    A shallow embedding of [src/utils/git.ts] (status normalisation,
    metadata enrichment, snapshot sorting, content search, commit history)
    and of the state handling of [src/App.tsx] (refresh, polling, filtered
    view), followed by the properties of the specification that concern
    them.

    Conventions.
    - A JavaScript string is a [string]; every [ascii] stands for one
      UTF-16 code unit below 256.
    - A [Date] is the integer [getTime()] returns (milliseconds since the
      epoch), a [Z]; [new Date(0)] is [0].
    - An awaited promise is a computation in the exception monad [Exc]:
      a rejected promise is [Throw], [try]/[catch] is [tryCatch].
    - Collaborators outside the repository (simple-git, fs, path, the
      host's collation) are fields of the record [Git.Host]. *)

From Stdlib Require Import ZArith String Ascii List Lia Bool.
From Stdlib Require Import Structures.OrdersEx.
From stdpp Require Import base gmap strings list sorting.

Open Scope string_scope.
Open Scope Z_scope.
Open Scope list_scope.

(* ===================================================================== *)
(** * Part I: definitions *)
(* ===================================================================== *)

(** ** JavaScript primitives used by the sources *)
Module JS.

(** Completion of an awaited call: a value, or a thrown error. *)
Inductive Exc (A : Type) : Type :=
| Ret (a : A)
| Throw (e : string).
Arguments Ret {A} a.
Arguments Throw {A} e.

#[global] Instance exc_ret : MRet Exc := fun A a => Ret a.
#[global] Instance exc_bind : MBind Exc := fun A B k m =>
  match m with
  | Ret a => k a
  | Throw e => Throw e
  end.

(** [try { body } catch (e) { handler(e) }] *)
Definition tryCatch {A} (body : Exc A) (handler : string -> Exc A) : Exc A :=
  match body with
  | Ret a => Ret a
  | Throw e => handler e
  end.

(** Truthiness of a string: only the empty string is falsy. *)
Definition truthy (s : string) : bool :=
  match s with
  | EmptyString => false
  | String _ _ => true
  end.

(** [x || d] for an optional string property: [undefined] and [''] both
    select the default. *)
Definition orDefault (x : option string) (d : string) : string :=
  match x with
  | Some s => if truthy s then s else d
  | None => d
  end.

(** [s.includes(sub)] *)
Fixpoint includes (s sub : string) : bool :=
  if String.prefix sub s then true
  else match s with
       | EmptyString => false
       | String _ s' => includes s' sub
       end.

(** White space and line terminators of ECMAScript among the code units
    below 256: TAB, LF, VT, FF, CR, SPACE and NBSP.  These are the code
    units removed by [trim] and matched by the regular expression
    class [\s]. *)
Definition isWhiteSpace (c : ascii) : bool :=
  let n := nat_of_ascii c in
  ((9 <=? n) && (n <=? 13) || (n =? 32) || (n =? 160))%nat.

Fixpoint trimStart (s : string) : string :=
  match s with
  | EmptyString => EmptyString
  | String c s' => if isWhiteSpace c then trimStart s' else s
  end.

Fixpoint trimEnd (s : string) : string :=
  match s with
  | EmptyString => EmptyString
  | String c s' =>
      match trimEnd s' with
      | EmptyString => if isWhiteSpace c then EmptyString else String c EmptyString
      | t => String c t
      end
  end.

(** [s.trim()] *)
Definition trim (s : string) : string := trimEnd (trimStart s).

(** [s.split(sep)] for a one-character separator. *)
Fixpoint split (sep : ascii) (s : string) : list string :=
  match s with
  | EmptyString => [EmptyString]
  | String c s' =>
      if Ascii.eqb c sep then EmptyString :: split sep s'
      else match split sep s' with
           | t :: ts => String c t :: ts
           | [] => [String c EmptyString]
           end
  end.

(** [s.split(/\s+/)]: the pieces between maximal runs of white space.
    [inRun] tells that the previous code unit belonged to a separator. *)
Fixpoint splitWs (inRun : bool) (s : string) : list string :=
  match s with
  | EmptyString => [EmptyString]
  | String c s' =>
      if isWhiteSpace c then
        if inRun then splitWs true s' else EmptyString :: splitWs true s'
      else match splitWs false s' with
           | t :: ts => String c t :: ts
           | [] => [String c EmptyString]
           end
  end.

Definition splitWhitespace (s : string) : list string := splitWs false s.

(** [parts.join(sep)] *)
Definition join (sep : string) (parts : list string) : string :=
  String.concat sep parts.

(** [s.replace(/[...]/g, '')]: drop every code unit of a class. *)
Fixpoint removeAll (cls : ascii -> bool) (s : string) : string :=
  match s with
  | EmptyString => EmptyString
  | String c s' => if cls c then removeAll cls s' else String c (removeAll cls s')
  end.

(** The [number] values a [limit] argument can take that matter for its
    truthiness: an integer or [NaN]. *)
Inductive number : Type :=
| NaN
| Int (z : Z).

Definition numberTruthy (n : number) : bool :=
  match n with
  | NaN => false
  | Int z => negb (z =? 0)
  end.

End JS.
Export JS.

(** [Array.prototype.sort(cmp)] and [Promise.all]. *)
Module JSArray.

(** Insertion of [x], which preceded every element of [l] in the
    array, into the sorted [l]: [x] stays in front of the elements it
    does not exceed. *)
Fixpoint insertSorted {A} (cmp : A -> A -> Z) (x : A) (l : list A) : list A :=
  match l with
  | [] => [x]
  | y :: l' => if cmp x y <=? 0 then x :: l else y :: insertSorted cmp x l'
  end.

(** [arr.sort(cmp)].  ECMAScript requires the sort to be stable; with a
    consistent comparator the result of a stable sort is unique, and it
    is the one computed here. *)
Fixpoint sort {A} (cmp : A -> A -> Z) (l : list A) : list A :=
  match l with
  | [] => []
  | x :: l' => insertSorted cmp x (sort cmp l')
  end.

(** [await Promise.all(ps)]: all the values, or a rejection. *)
Fixpoint promiseAll {A} (ps : list (Exc A)) : Exc (list A) :=
  match ps with
  | [] => Ret []
  | p :: ps' => a ← p; rest ← promiseAll ps'; mret (a :: rest)
  end.

End JSArray.

(** ** [src/utils/git.ts] *)
Module Git.

(** [FileStatus['status']] *)
Inductive Status : Type :=
| modified | new | deleted | renamed | unknown | unstaged | unchanged | ignored.

#[global] Instance Status_eq_dec : EqDecision Status.
Proof. solve_decision. Defined.

Record FileStatus : Type := mkFileStatus {
  path : string;
  status : Status;
  mtime : Z
}.

#[global] Instance FileStatus_eq_dec : EqDecision FileStatus.
Proof. solve_decision. Defined.

(** One element of simple-git's [status.files]: the path and the two
    porcelain flags; a flag may be absent. *)
Module FileStatusResult.
Record t : Type := mk {
  path : string;
  index : option string;
  working_dir : option string
}.
End FileStatusResult.

(** One element of [status.renamed]. *)
Record Rename : Type := mkRename {
  from : string;
  to : string
}.

(** simple-git's [StatusResult], restricted to the properties read by
    [getChangedFiles].  [None] is an absent property; for [files] it
    also covers a value that is not an array. *)
Module StatusResult.
Record t : Type := mk {
  files : option (list FileStatusResult.t);
  modified : option (list string);
  staged : option (list string);
  not_added : option (list string);
  deleted : option (list string);
  renamed : option (list Rename)
}.
End StatusResult.

(** [git.log] options and entries, [CommitInfo], [ChangedFile]. *)
Record LogOptions : Type := mkLogOptions {
  maxCount : option number
}.

Record LogEntry : Type := mkLogEntry {
  log_hash : string;
  log_message : string;
  log_author_name : string;
  log_date : string
}.

Record CommitInfo : Type := mkCommitInfo {
  hash : string;
  message : string;
  author : string;
  date : string
}.

Module ChangedFile.
Record t : Type := mk {
  path : string;
  status : string
}.
End ChangedFile.

(** The collaborators of the module: the simple-git instance, the
    injected [fsPromises] and [path] objects, the collation used by
    [String.prototype.localeCompare], and the working directory. *)
Record Host : Type := mkHost {
  cwd : string;
  simpleGit : Exc unit;
  git_status : Exc StatusResult.t;
  git_revparse : list string -> Exc string;
  git_raw : list string -> Exc string;
  git_log : LogOptions -> Exc (list LogEntry);
  git_show : list string -> Exc string;
  fs_stat : string -> Exc Z;
  path_isAbsolute : string -> bool;
  path_join : string -> string -> string;
  localeCompare : string -> string -> Z
}.

(** *** getRepoRoot *)
Definition getRepoRoot (h : Host) : Exc string :=
  tryCatch
    (_ ← simpleGit h;
     root ← git_revparse h ["--show-toplevel"];
     mret (trim root))
    (fun _ => mret (cwd h)).

(** *** getChangedFiles: the Status Normalizer *)

(** The two locals [uniquePaths] and [fileList]. *)
Record Collected : Type := mkCollected {
  uniquePaths : gset string;
  fileList : list FileStatus
}.

Definition emptyCollected : Collected :=
  {| uniquePaths := ∅; fileList := [] |}.

Definition addFileIfUnique (st : Collected) (filePath : string) (fileStatus : Status)
  : Collected :=
  if decide (filePath ∈ uniquePaths st) then st
  else {| uniquePaths := {[filePath]} ∪ uniquePaths st;
          fileList := fileList st ++
                      [ {| path := filePath; status := fileStatus; mtime := 0 |} ] |}.

(** [status.renamed && status.renamed.some(r => r.to === filePath || r.from === filePath)] *)
Definition inRenamed (status : StatusResult.t) (filePath : string) : bool :=
  match StatusResult.renamed status with
  | Some rs => existsb (fun r => String.eqb (to r) filePath || String.eqb (from r) filePath) rs
  | None => false
  end.

(** The callback of [status.files.forEach]. *)
Definition forEachFile (status : StatusResult.t) (st : Collected)
    (file : FileStatusResult.t) : Collected :=
  let indexStatus := orDefault (FileStatusResult.index file) " " in
  let workingDirStatus := orDefault (FileStatusResult.working_dir file) " " in
  let filePath := FileStatusResult.path file in
  if inRenamed status filePath then
    addFileIfUnique st filePath renamed
  else if includes indexStatus "D" || includes workingDirStatus "D" then
    addFileIfUnique st filePath deleted
  else if String.eqb indexStatus "?" && String.eqb workingDirStatus "?" then
    addFileIfUnique st filePath new
  else if includes indexStatus "A" && negb (String.eqb indexStatus "?") then
    addFileIfUnique st filePath modified
  else if (String.eqb indexStatus " " || String.eqb indexStatus "M")
          && (String.eqb workingDirStatus "M" || includes workingDirStatus "M") then
    addFileIfUnique st filePath unstaged
  else st.

(** [(list || []).forEach(file => addFileIfUnique(file, kind))] *)
Definition forEachPath (kind : Status) (l : option (list string)) (st : Collected)
  : Collected :=
  fold_left (fun st file => addFileIfUnique st file kind) (default [] l) st.

(** The [if (status.files && Array.isArray(status.files))] statement. *)
Definition collectFiles (status : StatusResult.t) : Collected :=
  match StatusResult.files status with
  | Some files => fold_left (forEachFile status) files emptyCollected
  | None =>
      let st := forEachPath unstaged (StatusResult.modified status) emptyCollected in
      let st := forEachPath modified (StatusResult.staged status) st in
      let st := forEachPath new (StatusResult.not_added status) st in
      let st := forEachPath deleted (StatusResult.deleted status) st in
      fold_left (fun st rename => addFileIfUnique st (to rename) renamed)
                (default [] (StatusResult.renamed status)) st
  end.

(** *** getChangedFiles: the Metadata Enricher *)

Definition absPath (h : Host) (root : string) (f : FileStatus) : string :=
  if path_isAbsolute h (path f) then path f else path_join h root (path f).

(** The [async (f) => { try { ... } catch { ... } }] mapped over
    [fileList]; the assignment to [f.mtime] is returned as the updated
    record. *)
Definition statFile (h : Host) (root : string) (f : FileStatus) : Exc FileStatus :=
  tryCatch
    (stat ← fs_stat h (absPath h root f);
     mret {| path := path f; status := status f; mtime := stat |})
    (fun _ => mret {| path := path f; status := status f; mtime := 0 |}).

Definition enrich (h : Host) (root : string) (l : list FileStatus)
  : Exc (list FileStatus) :=
  JSArray.promiseAll (map (statFile h root) l).

(** *** getChangedFiles: the Snapshot Sorter *)

(** The comparator passed to [fileList.sort].  A [Date] is truthy, so
    [a.mtime || new Date(0)] is [a.mtime].  The time values of two dates
    are integers of magnitude at most 8.64e15, so the sign of their
    floating-point difference is the sign of the integer difference. *)
Definition compareFiles (h : Host) (a b : FileStatus) : Z :=
  let mtimeA := mtime a in
  let mtimeB := mtime b in
  let timeDiff := mtimeB - mtimeA in
  if negb (timeDiff =? 0) then timeDiff
  else localeCompare h (path a) (path b).

Definition sortFiles (h : Host) (l : list FileStatus) : list FileStatus :=
  JSArray.sort (compareFiles h) l.

(** The body of the [try] block of [getChangedFiles]. *)
Definition getChangedFiles_body (h : Host) : Exc (list FileStatus) :=
  _ ← simpleGit h;
  status ← git_status h;
  root ← getRepoRoot h;
  let fileList := fileList (collectFiles status) in
  enriched ← enrich h root fileList;
  mret (sortFiles h enriched).

Definition getChangedFiles (h : Host) : Exc (list FileStatus) :=
  tryCatch (getChangedFiles_body h) (fun _ => mret []).

(** *** searchFiles *)

(** The class [[\\`$();|&<>{}[\]]] of the sanitising [replace]. *)
Definition shellMeta (c : ascii) : bool :=
  existsb (Ascii.eqb c) (list_ascii_of_string "\`$();|&<>{}[]").

(** [new Set(result.split('\n').map(p => p.trim()).filter(p => p !== ''))] *)
Definition matchedPathsOf (result : string) : gset string :=
  list_to_set (filter (fun p => p ≠ "") (map trim (split "010" result))).

Definition searchFiles (h : Host) (searchTerm : string) (filesToSearch : list FileStatus)
  : Exc (list FileStatus) :=
  if negb (truthy searchTerm) || negb (truthy (trim searchTerm))
     || (length filesToSearch =? 0)%nat then mret []
  else
    let trimmedTerm := trim searchTerm in
    let sanitizedTerm := removeAll shellMeta trimmedTerm in
    if negb (truthy sanitizedTerm) then mret []
    else
      tryCatch
        (_ ← simpleGit h;
         root ← getRepoRoot h;
         let filePathArgs := map path filesToSearch in
         let grepArgs :=
           (["grep"; "-i"; "-l"; "-F"; "--"; sanitizedTerm; "--"] ++ filePathArgs)%list in
         result ← git_raw h grepArgs;
         let matchedPaths := matchedPathsOf result in
         if (size matchedPaths =? 0)%nat then mret []
         else mret (filter (fun f => path f ∈ matchedPaths) filesToSearch))
        (fun _ => mret []).

(** *** getCommitHistory *)

(** [limit ? { maxCount: limit } : {}] *)
Definition logOptions (limit : option number) : LogOptions :=
  match limit with
  | Some n => if numberTruthy n then {| maxCount := Some n |} else {| maxCount := None |}
  | None => {| maxCount := None |}
  end.

Definition toCommitInfo (commit : LogEntry) : CommitInfo :=
  {| hash := substring 0 7 (log_hash commit);
     message := log_message commit;
     author := log_author_name commit;
     date := log_date commit |}.

Definition getCommitHistory (h : Host) (limit : option number) : Exc (list CommitInfo) :=
  tryCatch
    (_ ← simpleGit h;
     let options := logOptions limit in
     log ← git_log h options;
     mret (map toCommitInfo log))
    (fun _ => mret []).

(** *** getFilesInCommit *)

(** The body of [for (const line of lines)]. *)
Definition forLine (files : list ChangedFile.t) (line : string) : list ChangedFile.t :=
  let trimmedLine := trim line in
  if truthy trimmedLine then
    let parts := splitWhitespace trimmedLine in
    if (2 <=? length parts)%nat then
      let statusCode := nth 0 parts "" in
      let filePath := join " " (skipn 1 parts) in
      if truthy statusCode && truthy filePath then
        (files ++ [ {| ChangedFile.path := filePath; ChangedFile.status := statusCode |} ])%list
      else files
    else files
  else files.

Definition parseNameStatus (result : string) : list ChangedFile.t :=
  let lines := filter (fun line => trim line ≠ "") (split "010" result) in
  fold_left forLine lines [].

Definition getFilesInCommit (h : Host) (commitHash : string) : Exc (list ChangedFile.t) :=
  tryCatch
    (_ ← simpleGit h;
     result ← git_show h ["--name-status"; "--format="; commitHash];
     mret (parseNameStatus result))
    (fun _ => mret []).

End Git.

(** ** [src/App.tsx]: the React state and the closures that act on it *)
Module App.
Import Git.

(** The [useState] cells read or written by [refresh], [doSearch] and
    [filteredFiles].  A value of this type is used in two roles: as the
    store (the current value of every cell) and as a render (the values
    the closures created by one render captured). *)
Record State : Type := mkState {
  allFiles : list FileStatus;
  selectedIndex : Z;
  searchQuery : string;
  searchActive : bool;
  searchResults : option (list FileStatus);
  errorNotification : option string
}.

Definition setAllFiles (v : list FileStatus) (s : State) : State :=
  mkState v (selectedIndex s) (searchQuery s) (searchActive s) (searchResults s)
          (errorNotification s).
Definition setSelectedIndex (v : Z) (s : State) : State :=
  mkState (allFiles s) v (searchQuery s) (searchActive s) (searchResults s)
          (errorNotification s).
Definition setSearchQuery (v : string) (s : State) : State :=
  mkState (allFiles s) (selectedIndex s) v (searchActive s) (searchResults s)
          (errorNotification s).
Definition setSearchActive (v : bool) (s : State) : State :=
  mkState (allFiles s) (selectedIndex s) (searchQuery s) v (searchResults s)
          (errorNotification s).
Definition setSearchResults (v : option (list FileStatus)) (s : State) : State :=
  mkState (allFiles s) (selectedIndex s) (searchQuery s) (searchActive s) v
          (errorNotification s).
Definition setErrorNotification (v : option string) (s : State) : State :=
  mkState (allFiles s) (selectedIndex s) (searchQuery s) (searchActive s)
          (searchResults s) v.

(** The [useState] initial values. *)
Definition initialState : State :=
  mkState [] 0 "" false None None.

(** [refresh], up to its [await]: [true] when a pipeline pass is started. *)
Definition refresh_starts (render : State) (skipIfSearching : bool) : bool :=
  negb (skipIfSearching && searchActive render).

(** [refresh], from the point where [await getChangedFiles(repoPath)]
    resolved with [newFiles].  [selectedIndex] is the constant of the
    render that created this [refresh]; the setters act on the store. *)
Definition refresh_resume (render : State) (newFiles : list FileStatus) (store : State)
  : State :=
  let store := setAllFiles newFiles store in
  if selectedIndex render >=? Z.of_nat (length newFiles) then
    setSelectedIndex (Z.max 0 (Z.of_nat (length newFiles) - 1)) store
  else store.

(** The [useMemo] that computes [filteredFiles]. *)
Definition filteredFiles (s : State) : list FileStatus :=
  if negb (searchActive s) || negb (truthy (trim (searchQuery s))) then allFiles s
  else match searchResults s with
       | Some r => r
       | None => []
       end.

(** [doSearch], run when the debounce timer of a render fires. *)
Definition doSearch (h : Host) (render : State) (store : State) : State :=
  if negb (searchActive render) || negb (truthy (trim (searchQuery render))) then
    setSearchResults None store
  else
    match searchFiles h (searchQuery render) (allFiles render) with
    | Ret matchedFiles => setSearchResults (Some matchedFiles) store
    | Throw e =>
        setSearchResults None
          (setErrorNotification (Some ("Search failed: " +:+ e)) store)
    end.

(** *** The polling effect

    The component between two events: the store, the render whose
    [refresh] the callback of [setInterval] calls (the effect is
    registered anew only when [repoPath] or [searchActive] changes), and
    the renders of the [refresh] calls that wait for [getChangedFiles]. *)
Record Component : Type := mkComponent {
  store : State;
  pollRender : State;
  inflight : list State
}.

(** What the event loop delivers to the component, as far as it starts
    or ends a pass or changes a cell that [refresh] or the polling effect
    reads: a tick of the interval; the resolution of the [getChangedFiles]
    of the [k]-th pass in flight; the [await refresh()] that the key
    handler reaches after a confirmed revert or deletion, [render] being
    the render whose handler runs; a selection; a change of the query; and
    enter and escape in search mode. *)
Inductive Event : Type :=
| Tick
| Resolved (k : nat) (newFiles : list FileStatus)
| OperationRefresh (render : State)
| Select (index : Z)
| TypeQuery (q : string)
| SubmitSearch
| EscapeSearch.

(** After mounting: the load effect has called [refresh()], the polling
    effect has registered the interval. *)
Definition mounted : Component :=
  {| store := initialState; pollRender := initialState; inflight := [initialState] |}.

(** A changed [searchActive] runs the polling effect again: the interval
    is cleared and registered with the [refresh] of the new render. *)
Definition commit (before : State) (after : State) (c : Component) : Component :=
  {| store := after;
     pollRender := if Bool.eqb (searchActive before) (searchActive after)
                   then pollRender c else after;
     inflight := inflight c |}.

Definition step (c : Component) (e : Event) : Component :=
  match e with
  | Tick =>
      (* [async () => { await refresh(true); }] *)
      if refresh_starts (pollRender c) true then
        {| store := store c; pollRender := pollRender c;
           inflight := (inflight c ++ [pollRender c])%list |}
      else c
  | Resolved k newFiles =>
      match inflight c !! k with
      | Some render =>
          {| store := refresh_resume render newFiles (store c);
             pollRender := pollRender c;
             inflight := delete k (inflight c) |}
      | None => c
      end
  | OperationRefresh render =>
      (* [await refresh();] of the confirmation branches of the key handler *)
      if refresh_starts render false then
        {| store := store c; pollRender := pollRender c;
           inflight := (inflight c ++ [render])%list |}
      else c
  | Select index =>
      (* [onSelect]: [setSelectedIndex(index)] *)
      commit (store c) (setSelectedIndex index (store c)) c
  | TypeQuery q =>
      commit (store c) (setSearchQuery q (store c)) c
  | SubmitSearch =>
      (* enter in search mode *)
      let s := store c in
      commit s (setSelectedIndex 0
                  (setSearchActive (0 <? Z.of_nat (String.length (trim (searchQuery s)))) s)) c
  | EscapeSearch =>
      let s := store c in
      commit s (setSelectedIndex 0 (setSearchActive false (setSearchQuery "" s))) c
  end.

Definition run (c : Component) (events : list Event) : Component :=
  fold_left step events c.

(** The largest number of passes in flight at any point of a run. *)
Fixpoint maxInflight (c : Component) (events : list Event) : nat :=
  match events with
  | [] => length (inflight c)
  | e :: events' => Nat.max (length (inflight c)) (maxInflight (step c e) events')
  end.

(** Whether the event makes a [refresh] reach [getChangedFiles]. *)
Definition startsPass (c : Component) (e : Event) : bool :=
  match e with
  | Tick => refresh_starts (pollRender c) true
  | OperationRefresh render => refresh_starts render false
  | _ => false
  end.

(** Whether the event is the resolution of a pass in flight. *)
Definition endsPass (c : Component) (e : Event) : bool :=
  match e with
  | Resolved k _ => bool_decide (is_Some (inflight c !! k))
  | _ => false
  end.

(** The number of events of a run, from [c] on, of which [f] holds. *)
Fixpoint countEvents (f : Component -> Event -> bool) (c : Component)
    (events : list Event) : nat :=
  match events with
  | [] => 0
  | e :: events' => (if f c e then 1 else 0) + countEvents f (step c e) events'
  end.

(** A run in which every event that starts a pass, a tick or a refresh of
    the key handler, finds no pass in flight. *)
Fixpoint timely (c : Component) (events : list Event) : Prop :=
  match events with
  | [] => True
  | e :: events' =>
      (startsPass c e = true -> inflight c = []) /\ timely (step c e) events'
  end.

End App.

(** ** The notions the specification is phrased in *)
Module Spec.
Import Git.

(** *** Status resolution (specification, section 4.1)

    The rules as the specification words them, on the raw flags of an
    entry.  An empty flag is an absent one, the empty string, or the blank
    of the porcelain format. *)
Definition flagContains (flag : option string) (letter : string) : bool :=
  match flag with
  | Some f => includes f letter
  | None => false
  end.

Definition flagIs (flag : option string) (s : string) : bool :=
  match flag with
  | Some f => String.eqb f s
  | None => false
  end.

Definition flagEmpty (flag : option string) : bool :=
  match flag with
  | Some f => String.eqb f "" || String.eqb f " "
  | None => true
  end.

Definition inRenameList (renames : list Rename) (p : string) : bool :=
  existsb (fun r => String.eqb (to r) p || String.eqb (from r) p) renames.

(** Rules 1 to 6, first match wins. *)
Definition priorityRule (renames : list Rename) (e : FileStatusResult.t) : option Status :=
  let indexFlag := FileStatusResult.index e in
  let workingFlag := FileStatusResult.working_dir e in
  if inRenameList renames (FileStatusResult.path e) then Some renamed
  else if flagContains indexFlag "D" || flagContains workingFlag "D" then Some deleted
  else if flagIs indexFlag "?" && flagIs workingFlag "?" then Some new
  else if flagContains indexFlag "A" && negb (flagIs indexFlag "?") then Some modified
  else if (flagEmpty indexFlag || flagIs indexFlag "M")
          && (flagIs workingFlag "M" || flagContains workingFlag "M") then Some unstaged
  else None.

(** The rename list of a status report; an absent list has no pair. *)
Definition renameList (status : StatusResult.t) : list Rename :=
  default [] (StatusResult.renamed status).

(** *** Deduplication

    The raw entries that resolve, in the order in which the Normalizer
    meets them, each with the kind it resolves to. *)
Definition flatResolutions (status : StatusResult.t) : list (string * Status) :=
  (map (fun p => (p, unstaged)) (default [] (StatusResult.modified status))
   ++ map (fun p => (p, modified)) (default [] (StatusResult.staged status))
   ++ map (fun p => (p, new)) (default [] (StatusResult.not_added status))
   ++ map (fun p => (p, deleted)) (default [] (StatusResult.deleted status))
   ++ map (fun r => (to r, renamed)) (renameList status))%list.

Definition resolutions (status : StatusResult.t) : list (string * Status) :=
  match StatusResult.files status with
  | Some files =>
      omap (fun e => k ← priorityRule (renameList status) e;
                     Some (FileStatusResult.path e, k)) files
  | None => flatResolutions status
  end.

(** The kind of the first resolved entry for a path. *)
Fixpoint firstResolved (rs : list (string * Status)) (p : string) : option Status :=
  match rs with
  | [] => None
  | (q, k) :: rs' => if String.eqb q p then Some k else firstResolved rs' p
  end.

(** The calls [addFileIfUnique(path, kind)] made for a list of resolved
    entries. *)
Definition addCalls (st : Collected) (calls : list (string * Status)) : Collected :=
  fold_left (fun st c => addFileIfUnique st (fst c) (snd c)) calls st.

(** What the two locals of the Normalizer record about the calls made so
    far: the invariant of its loops. *)
Record Reflects (calls : list (string * Status)) (st : Collected) : Prop := mkReflects {
  reflects_seen : forall p, p ∈ uniquePaths st <-> is_Some (firstResolved calls p);
  reflects_nodup : NoDup (map path (fileList st));
  reflects_first : forall r, r ∈ fileList st ->
                     firstResolved calls (path r) = Some (status r) /\ mtime r = 0;
  reflects_all : forall p, is_Some (firstResolved calls p) -> p ∈ map path (fileList st)
}.

(** *** Enrichment

    The root [getRepoRoot] resolves to, and the record the Enricher makes
    of a record. *)
Definition repoRoot (h : Host) : string :=
  match getRepoRoot h with
  | Ret root => root
  | Throw _ => cwd h
  end.

Definition mtimeOf (h : Host) (root : string) (f : FileStatus) : Z :=
  match fs_stat h (absPath h root f) with
  | Ret t => t
  | Throw _ => 0
  end.

Definition enriched (h : Host) (root : string) (f : FileStatus) : FileStatus :=
  {| path := path f; status := status f; mtime := mtimeOf h root f |}.

(** The snapshot [getChangedFiles] computes from a status report. *)
Definition snapshotOf (h : Host) (status : StatusResult.t) : list FileStatus :=
  sortFiles h (map (enriched h (repoRoot h)) (fileList (collectFiles status))).

(** *** Snapshot order *)

(** Code-unit lexicographic order on paths. *)
Definition lexLe (a b : string) : Prop := String_as_OT.compare a b <> Gt.

(** The order of the snapshot with ties broken lexicographically. *)
Definition lexOrder (a b : FileStatus) : Prop :=
  mtime b < mtime a \/ (mtime a = mtime b /\ lexLe (path a) (path b)).

(** The order of the snapshot with ties broken by a comparator [lc]. *)
Definition collatedOrder (lc : string -> string -> Z) (a b : FileStatus) : Prop :=
  mtime b < mtime a \/ (mtime a = mtime b /\ lc (path a) (path b) <= 0).

(** What [Array.prototype.sort] asks of the comparator on paths: the signs
    of [lc a b] and [lc b a] are opposite, and [<= 0] is transitive. *)
Record Consistent (lc : string -> string -> Z) : Prop := mkConsistent {
  consistent_sgn : forall a b, Z.sgn (lc b a) = - Z.sgn (lc a b);
  consistent_trans : forall a b c, lc a b <= 0 -> lc b c <= 0 -> lc a c <= 0
}.

(** No two records of [l] with the same time have different paths that
    the comparator [lc] takes for equal. *)
Definition SeparatesTies (lc : string -> string -> Z) (l : list FileStatus) : Prop :=
  forall a b, a ∈ l -> b ∈ l -> mtime a = mtime b ->
              lc (path a) (path b) = 0 -> path a = path b.

(** *** Lines of a name-status report *)

Fixpoint allWhiteSpace (s : string) : bool :=
  match s with
  | EmptyString => true
  | String c s' => isWhiteSpace c && allWhiteSpace s'
  end.

Fixpoint noWhiteSpace (s : string) : bool :=
  match s with
  | EmptyString => true
  | String c s' => negb (isWhiteSpace c) && noWhiteSpace s'
  end.

(** A token: a non-empty run without white space. *)
Definition isToken (s : string) : bool := truthy s && noWhiteSpace s.

(** A separator: a non-empty run of white space. *)
Definition isSeparator (s : string) : bool := truthy s && allWhiteSpace s.

(** The text [sep1 tok1 sep2 tok2 ... trail]. *)
Fixpoint separated (rest : list (string * string)) (trail : string) : string :=
  match rest with
  | [] => trail
  | (sep, tok) :: rest' => sep +:+ tok +:+ separated rest' trail
  end.

End Spec.

(** ** A model of the host collation

    [String.prototype.localeCompare] compares by the collation of the
    host's locale (ICU), which is not part of the repository.  The
    definitions below model it on strings of ASCII letters, digits and
    the soft hyphen U+00AD.  On letters and digits the root collation
    first compares the strings letter by letter without regard to case,
    digits before letters, and, when that finds no difference, orders
    them at the first difference in case with lower case first.  The soft
    hyphen is ignored, so the comparison returns 0 on strings that differ
    in soft hyphens only.  The other code units (punctuation, the other
    units from 0x80 on) are outside the model: they are ranked by their
    value here, which the host does not do, and nothing below is stated
    about paths that hold them. *)
Module Collation.

Definition isUpper (c : ascii) : bool :=
  let n := nat_of_ascii c in ((65 <=? n) && (n <=? 90))%nat.

Definition isLower (c : ascii) : bool :=
  let n := nat_of_ascii c in ((97 <=? n) && (n <=? 122))%nat.

Definition foldCase (c : ascii) : ascii :=
  if isUpper c then ascii_of_nat (nat_of_ascii c + 32) else c.

Definition swapCase (c : ascii) : ascii :=
  if isUpper c then ascii_of_nat (nat_of_ascii c + 32)
  else if isLower c then ascii_of_nat (nat_of_ascii c - 32)
  else c.

Fixpoint mapString (f : ascii -> ascii) (s : string) : string :=
  match s with
  | EmptyString => EmptyString
  | String c s' => String (f c) (mapString f s')
  end.

Definition collate (a b : string) : comparison :=
  match String_as_OT.compare (mapString foldCase a) (mapString foldCase b) with
  | Eq => String_as_OT.compare (mapString swapCase a) (mapString swapCase b)
  | c => c
  end.

(** U+00AD, the soft hyphen, has no weight. *)
Definition ignorable (c : ascii) : bool := (nat_of_ascii c =? 173)%nat.

Definition localeCompare (a b : string) : Z :=
  match collate (JS.removeAll ignorable a) (JS.removeAll ignorable b) with
  | Lt => -1
  | Eq => 0
  | Gt => 1
  end.

End Collation.

(** ** Concrete hosts and reports used in the examples *)
Module Sample.
Import Git.

Definition LF : string := String "010" EmptyString.
Definition TAB : string := String "009" EmptyString.

(** U+00AD, the soft hyphen. *)
Definition SHY : string := String "173" EmptyString.

(** A repository in which nothing fails and nothing is reported. *)
Definition quietHost : Host :=
  {| cwd := "/repo";
     simpleGit := Ret tt;
     git_status := Ret (StatusResult.mk (Some []) None None None None (Some []));
     git_revparse := fun _ => Ret ("/repo" +:+ LF);
     git_raw := fun _ => Ret "";
     git_log := fun _ => Ret [];
     git_show := fun _ => Ret "";
     fs_stat := fun _ => Ret 1704067200000;
     path_isAbsolute := fun p => String.prefix "/" p;
     path_join := fun a b => a +:+ "/" +:+ b;
     localeCompare := Collation.localeCompare |}.

Definition withStatus (h : Host) (st : Exc StatusResult.t) : Host :=
  mkHost (cwd h) (simpleGit h) st (git_revparse h) (git_raw h) (git_log h)
         (git_show h) (fs_stat h) (path_isAbsolute h) (path_join h) (localeCompare h).

Definition withStat (h : Host) (stat : string -> Exc Z) : Host :=
  mkHost (cwd h) (simpleGit h) (git_status h) (git_revparse h) (git_raw h) (git_log h)
         (git_show h) stat (path_isAbsolute h) (path_join h) (localeCompare h).

Definition withRaw (h : Host) (raw : list string -> Exc string) : Host :=
  mkHost (cwd h) (simpleGit h) (git_status h) (git_revparse h) raw (git_log h)
         (git_show h) (fs_stat h) (path_isAbsolute h) (path_join h) (localeCompare h).

Definition withShow (h : Host) (show : list string -> Exc string) : Host :=
  mkHost (cwd h) (simpleGit h) (git_status h) (git_revparse h) (git_raw h) (git_log h)
         show (fs_stat h) (path_isAbsolute h) (path_join h) (localeCompare h).

Definition withLog (h : Host) (log : LogOptions -> Exc (list LogEntry)) : Host :=
  mkHost (cwd h) (simpleGit h) (git_status h) (git_revparse h) (git_raw h) log
         (git_show h) (fs_stat h) (path_isAbsolute h) (path_join h) (localeCompare h).

Definition entry (p i w : string) : FileStatusResult.t :=
  FileStatusResult.mk p (Some i) (Some w).

Definition report (files : list FileStatusResult.t) (renames : list Rename)
  : StatusResult.t :=
  StatusResult.mk (Some files) None None None None (Some renames).

End Sample.

(** ** [src/utils/git.ts]: the remaining functions *)
Module GitFs.
Import Git.

(** The collaborators these functions use besides those of [Git.Host]:
    more of the simple-git instance, and more of the injected
    [fsPromises] and [path] objects. *)
Record Tools : Type := mkTools {
  git_branch : list string -> Exc (list string);
  git_diff : list string -> Exc string;
  git_checkout : list string -> Exc unit;
  fs_access : string -> Exc unit;
  fs_readFile : string -> Exc string;
  fs_unlink : string -> Exc unit;
  path_resolve : string -> string -> string
}.

(** [console.error] is not modelled: it changes no result. *)
Definition getFileContent (h : Host) (t : Tools) (filePath : string) : Exc string :=
  tryCatch
    (let absolutePath :=
       if path_isAbsolute h filePath then filePath else path_join h (cwd h) filePath in
     _ ← fs_access t absolutePath;
     fs_readFile t absolutePath)
    (fun _ => mret "").

Definition getCurrentBranch (h : Host) : Exc string :=
  tryCatch
    (_ ← simpleGit h;
     branch ← git_revparse h ["--abbrev-ref"; "HEAD"];
     mret branch)
    (fun _ => mret "unknown").

Definition getBranchCount (h : Host) (t : Tools) : Exc nat :=
  tryCatch
    (_ ← simpleGit h;
     branches ← git_branch t ["-a"];
     mret (length branches))
    (fun _ => mret 0%nat).

Definition revertFile (h : Host) (t : Tools) (filePath : string) : Exc unit :=
  _ ← simpleGit h;
  git_checkout t ["HEAD"; "--"; filePath].

Definition isGitRepository (h : Host) : Exc bool :=
  tryCatch
    (_ ← simpleGit h;
     _ ← git_revparse h ["--git-dir"];
     mret true)
    (fun _ => mret false).

Definition deleteFile (h : Host) (t : Tools) (filePath : string) : Exc unit :=
  tryCatch
    (let absolutePath := path_resolve t (cwd h) filePath in
     fs_unlink t absolutePath)
    (fun _ => mret tt).

Definition getRawDiff (h : Host) (t : Tools) (filePath : string) : Exc string :=
  tryCatch
    (_ ← simpleGit h;
     diff ← git_diff t ["HEAD"; "-U3"; "--"; filePath];
     mret diff)
    (fun _ => mret "").

(** *** deleteFileSafely

    The function acts on the file system and looks at it again after a
    wait, so the file system is a state [W] that is passed along.  What a
    collaborator does to it is up to the collaborator: [trash] (the
    dynamic import of the package and its call) and [unlink] return the
    new state and whether they threw; [wait] is what happens to the file
    system during the 500 ms of [setTimeout]. *)
Record Disk (W : Type) : Type := mkDisk {
  resolve : string -> string;
  access : string -> W -> Exc unit;
  trash : list string -> W -> W * Exc unit;
  unlink : string -> W -> W * Exc unit;
  wait : W -> W
}.
Arguments resolve {W} _ _.
Arguments access {W} _ _ _.
Arguments trash {W} _ _ _.
Arguments unlink {W} _ _ _.
Arguments wait {W} _ _.

(** [try { await access(p) } catch { return true } return false] *)
Definition verifyDeleted {W} (d : Disk W) (absolutePath : string) (w : W) : bool :=
  match access d absolutePath w with
  | Ret _ => false
  | Throw _ => true
  end.

Definition deleteFileSafely {W} (d : Disk W) (filePath : string) (w : W) : W * bool :=
  let absolutePath := resolve d filePath in
  match access d absolutePath w with
  | Throw _ => (w, false)
  | Ret _ =>
      match trash d [absolutePath] w with
      | (w1, Ret _) =>
          let w2 := wait d w1 in
          (w2, verifyDeleted d absolutePath w2)
      | (w1, Throw _) =>
          match unlink d absolutePath w1 with
          | (w2, Ret _) =>
              let w3 := wait d w2 in
              (w3, verifyDeleted d absolutePath w3)
          | (w2, Throw _) => (w2, false)
          end
      end
  end.

(** A file system that is the set of the paths that exist, with a trash
    and an unlink that remove the path they are given. *)
Definition setDisk : Disk (gset string) :=
  {| resolve := fun p => "/repo/" +:+ p;
     access := fun p w => if decide (p ∈ w) then Ret tt else Throw "ENOENT";
     trash := fun ps w => (w ∖ list_to_set ps, Ret tt);
     unlink := fun p w => (w ∖ {[p]}, Ret tt);
     wait := fun w => w |}.

End GitFs.

(** ** Notions used to state further properties *)
Module SpecMore.
Import Git Spec.

(** Every code unit of [s] satisfies [p]. *)
Fixpoint allUnits (p : ascii -> bool) (s : string) : bool :=
  match s with
  | EmptyString => true
  | String c s' => p c && allUnits p s'
  end.

(** The arguments [searchFiles] gives [git.raw] for a term and files. *)
Definition grepArgs (term : string) (files : list FileStatus) : list string :=
  ["grep"; "-i"; "-l"; "-F"; "--"; term; "--"] ++ map path files.

(** A path made of tokens with one space between them. *)
Definition singleSpaced (p : string) : Prop :=
  exists tok toks,
    isToken tok = true /\ Forall (fun t => isToken t = true) toks
    /\ p = join " " (tok :: toks).

End SpecMore.

(** ** The components: [FileList], [HistoryViewer], [DiffViewer] *)
Module Views.

(** [s.repeat(count)]: a negative count is a [RangeError]. *)
Fixpoint repeatString (s : string) (count : nat) : string :=
  match count with
  | O => EmptyString
  | S n => s +:+ repeatString s n
  end.

Definition repeat (s : string) (count : Z) : Exc string :=
  if count <? 0 then Throw "RangeError: Invalid count value"
  else Ret (repeatString s (Z.to_nat count)).

(** [s.substring(0, end)]: a negative [end] counts as 0. *)
Definition substringTo (s : string) (end_ : Z) : string :=
  substring 0 (Z.to_nat end_) s.

(** [s.substring(start)] *)
Fixpoint substringFrom (s : string) (start : nat) : string :=
  match start, s with
  | O, _ => s
  | S n, EmptyString => EmptyString
  | S n, String _ s' => substringFrom s' n
  end.

(** *** FileList *)

Definition truncatePath (path : string) (maxLength : Z) : Exc string :=
  if Z.of_nat (String.length path) <=? maxLength then Ret path
  else if maxLength <=? 3 then repeat "." maxLength
  else Ret (substringTo path (maxLength - 3) +:+ "...").

(** The effect that follows the selection: the value it leaves in
    [scrollRef.current.scrollTop].  [height] is
    [scrollRef.current.viewport?.height]. *)
Definition followSelection (height : option Z) (scrollTop selectedIndex : Z) : Z :=
  let viewportHeight :=
    match height with
    | Some v => if v =? 0 then 10 else v
    | None => 10
    end in
  if selectedIndex <? scrollTop then selectedIndex
  else if selectedIndex >=? scrollTop + viewportHeight then
    selectedIndex - viewportHeight + 1
  else scrollTop.

(** [onMouseScroll]: the [delta] handed to [onScroll], if any. *)
Definition wheelDelta (button : Z) : option Z :=
  let delta := if button =? 4 then -1 else if button =? 5 then 1 else 0 in
  if negb (delta =? 0) then Some delta else None.

(** *** HistoryViewer *)

Definition formatMessage (message : string) (maxLength : Z) : string :=
  if Z.of_nat (String.length message) <=? maxLength then message
  else substringTo message (maxLength - 3) +:+ "...".


Inductive RowKey : Type := RowUp | RowDown | RowPageUp | RowPageDown.

(** The row selected after a key, the file dialog being closed. *)
Definition selectRow (commitsLength : Z) (key : RowKey) (selectedRow : Z) : Z :=
  match key with
  | RowUp => Z.max 0 (selectedRow - 1)
  | RowDown => Z.min (commitsLength - 1) (selectedRow + 1)
  | RowPageUp => Z.max 0 (selectedRow - 10)
  | RowPageDown => Z.min (commitsLength - 1) (selectedRow + 10)
  end.

(** *** DiffViewer *)

(** [s.lastIndexOf(c, position)] for a one-unit [c]: the greatest index
    not beyond [position] at which [c] stands; [None] is -1. *)
Fixpoint lastIndexOf (c : ascii) (s : string) (position : nat) : option nat :=
  match s with
  | EmptyString => None
  | String d s' =>
      let here := if Ascii.eqb d c then Some O else None in
      match position with
      | O => here
      | S p =>
          match lastIndexOf c s' p with
          | Some i => Some (S i)
          | None => here
          end
      end
  end.

(** The [while] loop of [wrapLine]; [fuel] bounds the number of
    iterations, and [None] tells that it did not suffice. *)
Fixpoint wrapLoop (fuel : nat) (maxLength : nat) (remaining : string)
    (lines : list string) : option (list string) :=
  match fuel with
  | O => None
  | S fuel' =>
      if (0 <? String.length remaining)%nat then
        if (String.length remaining <=? maxLength)%nat then
          Some (lines ++ [remaining])
        else
          let breakIndex :=
            match lastIndexOf " " remaining maxLength with
            | Some lastSpace =>
                if (maxLength <? 2 * lastSpace)%nat then S lastSpace else maxLength
            | None => maxLength
            end in
          wrapLoop fuel' maxLength (substringFrom remaining breakIndex)
                   (lines ++ [substring 0 breakIndex remaining])
      else Some lines
  end.

Definition wrapLine (fuel : nat) (text : string) (maxLength : nat)
  : option (list string) :=
  if (String.length text <=? maxLength)%nat then Some [text]
  else wrapLoop fuel maxLength text [].

(** A line of [wrapLine]: within the width, or one unit over it and
    then ending with the space it was broken after. *)
Definition fitsWidth (maxLength : nat) (line : string) : Prop :=
  line <> ""
  /\ ((String.length line <= maxLength)%nat
      \/ (String.length line = S maxLength /\ exists pre, line = pre +:+ " ")).

End Views.

(** ** [src/App.tsx]: selection by keys and by the wheel *)
Module Keys.

(** [setSelectedIndex(i => Math.max(0, i - 1))] *)
Definition keyUp (i : Z) : Z := Z.max 0 (i - 1).

(** [setSelectedIndex(i => Math.min(filteredFiles.length - 1, i + 1))] *)
Definition keyDown (filteredLength : Z) (i : Z) : Z :=
  Z.min (filteredLength - 1) (i + 1).

(** The updater of [onScroll]. *)
Definition onScroll (filteredLength : Z) (delta : Z) (i : Z) : Z :=
  let next := i + (if delta >? 0 then 1 else -1) in
  Z.max 0 (Z.min (filteredLength - 1) next).

Inductive Move : Type :=
| MoveUp
| MoveDown
| Wheel (button : Z).

Definition move (filteredLength : Z) (m : Move) (i : Z) : Z :=
  match m with
  | MoveUp => keyUp i
  | MoveDown => keyDown filteredLength i
  | Wheel button =>
      match Views.wheelDelta button with
      | Some delta => onScroll filteredLength delta i
      | None => i
      end
  end.

End Keys.

(** ** [src/App.tsx]: the keyboard handler *)
Module Keyboard.
Import Git App.

(** A key event, as far as the handler reads it. *)
Record Key : Type := mkKey {
  name : string;
  sequence : option string;
  ctrl : bool;
  meta : bool
}.

Inductive Focus : Type := fileList | diffView.

(** The cells of [App.State] and the other [useState] cells the handler
    reads or writes. *)
Record Ui : Type := mkUi {
  cells : State;
  focused : Focus;
  confirmRevert : bool;
  confirmDelete : bool;
  searchMode : bool;
  historyMode : bool
}.

Definition withCells (f : State -> State) (u : Ui) : Ui :=
  mkUi (f (cells u)) (focused u) (confirmRevert u) (confirmDelete u) (searchMode u)
       (historyMode u).
Definition setFocused (v : Focus) (u : Ui) : Ui :=
  mkUi (cells u) v (confirmRevert u) (confirmDelete u) (searchMode u) (historyMode u).
Definition setConfirmRevert (v : bool) (u : Ui) : Ui :=
  mkUi (cells u) (focused u) v (confirmDelete u) (searchMode u) (historyMode u).
Definition setConfirmDelete (v : bool) (u : Ui) : Ui :=
  mkUi (cells u) (focused u) (confirmRevert u) v (searchMode u) (historyMode u).
Definition setSearchMode (v : bool) (u : Ui) : Ui :=
  mkUi (cells u) (focused u) (confirmRevert u) (confirmDelete u) v (historyMode u).
Definition setHistoryMode (v : bool) (u : Ui) : Ui :=
  mkUi (cells u) (focused u) (confirmRevert u) (confirmDelete u) (searchMode u) v.

(** What the handler starts and leaves running when it returns or
    reaches its first [await]: the exit of the process; under the revert
    confirmation [await revertFile(file.path)] or, for a file of status
    new, [await deleteFileSafely(file.path)]; under the delete
    confirmation [await deleteFileSafely(file.path)]; and [openFile].
    The two deletions differ in what follows the call: under the revert
    confirmation the answer of [deleteFileSafely] is not looked at, under
    the delete confirmation [refresh] is called only when it is [true]. *)
Inductive Operation : Type :=
| Exit
| RevertFile (file : FileStatus)
| DeleteNewFile (file : FileStatus)
| DeleteFile (file : FileStatus)
| OpenFile (path : string).

(** [arr[i]] for an integer [i]. *)
Definition at_ {A} (l : list A) (i : Z) : option A :=
  if i <? 0 then None else l !! Z.to_nat i.

(** [q.slice(0, -1)] *)
Fixpoint dropLast (s : string) : string :=
  match s with
  | EmptyString => EmptyString
  | String c EmptyString => EmptyString
  | String c s' => String c (dropLast s')
  end.

(** The class [[\x20\x21-\x7E -￿]] on a code unit. *)
Definition printable (c : ascii) : bool :=
  let n := nat_of_ascii c in
  ((32 <=? n) && (n <=? 126) || (160 <=? n))%nat.

(** [key.sequence && key.sequence.length === 1 && !key.ctrl && !key.meta]
    and the test of the class: the text to append, if any. *)
Definition typed (key : Key) : option string :=
  match sequence key with
  | Some (String c EmptyString) =>
      if negb (ctrl key) && negb (meta key) && printable c
      then Some (String c EmptyString) else None
  | _ => None
  end.

Definition nameIs (key : Key) (n : string) : bool := String.eqb (name key) n.

(** The branch [if (searchMode)]. *)
Definition searchModeKey (render : Ui) (key : Key) (store : Ui) : Ui :=
  if nameIs key "escape" then
    withCells (fun s => setSelectedIndex 0 (setSearchActive false (setSearchQuery "" s)))
              (setSearchMode false store)
  else if nameIs key "backspace" then
    withCells (fun s => setSearchQuery (dropLast (searchQuery s)) s) store
  else if nameIs key "enter" || nameIs key "return" then
    withCells (fun s =>
                 setSelectedIndex 0
                   (setSearchActive
                      (0 <? Z.of_nat (String.length (trim (searchQuery (cells render)))))
                      s))
              (setSearchMode false store)
  else
    match typed key with
    | Some text => withCells (fun s => setSearchQuery (searchQuery s +:+ text) s) store
    | None => store
    end.

(** [if (errorNotification)]: a notification that is not the empty
    string. *)
Definition errorShown (u : Ui) : bool :=
  match errorNotification (cells u) with
  | Some message => truthy message
  | None => false
  end.

(** [filteredFiles.length > 0 || searchActive] *)
Definition fileActions (u : Ui) : bool :=
  (0 <? Z.of_nat (length (filteredFiles (cells u)))) || searchActive (cells u).

(** [filteredFiles[selectedIndex]] *)
Definition selectedFile (u : Ui) : option FileStatus :=
  at_ (filteredFiles (cells u)) (selectedIndex (cells u)).

(** The callback of [useKeyboard], up to its return or its first
    [await]: the store it leaves and the operation it has started.  The
    operations [RevertFile], [DeleteNewFile] and [DeleteFile] end by
    closing their confirmation ([setConfirmRevert(false)],
    [setConfirmDelete(false)]); until then the confirmation stays
    open. *)
Definition handleKey (render : Ui) (key : Key) (store : Ui) : Ui * option Operation :=
  let filtered := filteredFiles (cells render) in
  let fileActions := fileActions render in
  if errorShown render then (withCells (setErrorNotification None) store, None)
  else if historyMode render then
    if nameIs key "q" then (store, Some Exit) else (store, None)
  else if searchMode render then (searchModeKey render key store, None)
  else if confirmRevert render then
    match (if nameIs key "y" then selectedFile render else None) with
    | Some file =>
        match status file with
        | new => (store, Some (DeleteNewFile file))
        | _ => (store, Some (RevertFile file))
        end
    | None => (setConfirmRevert false store, None)
    end
  else if confirmDelete render then
    match (if nameIs key "y" then selectedFile render else None) with
    | Some file => (store, Some (DeleteFile file))
    | None => (setConfirmDelete false store, None)
    end
  else if nameIs key "q" then (store, Some Exit)
  else
    let store :=
      if nameIs key "s" && fileActions then setSearchMode true store else store in
    let store := if nameIs key "h" then setHistoryMode true store else store in
    let store :=
      if nameIs key "tab" || nameIs key "left" || nameIs key "right" then
        setFocused (match focused store with
                    | fileList => diffView
                    | diffView => fileList
                    end) store
      else store in
    match focused render with
    | diffView => (store, None)
    | fileList =>
        let store :=
          if nameIs key "up" then
            withCells (fun s => setSelectedIndex (Keys.keyUp (selectedIndex s)) s) store
          else store in
        let store :=
          if nameIs key "down" then
            withCells (fun s => setSelectedIndex
                                  (Keys.keyDown (Z.of_nat (length filtered))
                                                (selectedIndex s)) s) store
          else store in
        let operation :=
          if nameIs key "enter" || nameIs key "return" then
            match selectedFile render with
            | Some file => Some (OpenFile (path file))
            | None => None
            end
          else None in
        let store :=
          if nameIs key "d" && fileActions then setConfirmDelete true store else store in
        let store :=
          if nameIs key "r" && fileActions then setConfirmRevert true store else store in
        (store, operation)
    end.

End Keyboard.

(* --------------------------------------------------------------------- *)
(** ** The diff pane (the DiffViewer component): loading *)
Module DiffPane.
Import Git GitFs.

(** The state cells of the component that [loadContent] writes. *)
Record Pane : Type := mkPane {
  rawDiff : string;
  fileContent : string;
  loading : bool;
  isBinary : bool
}.

Definition setRawDiff (v : string) (s : Pane) : Pane :=
  mkPane v (fileContent s) (loading s) (isBinary s).
Definition setFileContent (v : string) (s : Pane) : Pane :=
  mkPane (rawDiff s) v (loading s) (isBinary s).
Definition setLoading (v : bool) (s : Pane) : Pane :=
  mkPane (rawDiff s) (fileContent s) v (isBinary s).
Definition setIsBinary (v : bool) (s : Pane) : Pane :=
  mkPane (rawDiff s) (fileContent s) (loading s) v.

(** [status === 'new' || status === 'unchanged'], the prop being
    optional. *)
Definition showsContent (status : option Status) : bool :=
  match status with
  | Some new | Some unchanged => true
  | _ => false
  end.

(** [loadContent(showLoading)] of a render with the props [filename],
    [status] and [repoPath], run on the state [s].  [h] and [t] are the
    [path] and [fs/promises] modules and the git instance of the
    process's directory ([cwd h] is [process.cwd()]); [isBinaryFile] is
    the package of that name. *)
Definition loadContent (h : Host) (t : Tools) (isBinaryFile : string -> Exc bool)
    (filename : option string) (status : option Status) (repoPath : option string)
    (showLoading : bool) (s : Pane) : Exc Pane :=
  if negb (truthy (orDefault filename "")) then
    mret (setIsBinary false (setFileContent "" (setRawDiff "" s)))
  else
    let filename := orDefault filename "" in
    let s := if showLoading then setLoading true s else s in
    if showsContent status then
      s ← tryCatch
            (let absPath :=
               if path_isAbsolute h filename then filename
               else path_join h (orDefault repoPath (cwd h)) filename in
             content ← fs_readFile t absPath;
             binary ← isBinaryFile absPath;
             mret (if binary : bool then
                     setIsBinary true (setRawDiff "" (setFileContent "" s))
                   else
                     setIsBinary false (setRawDiff "" (setFileContent content s))))
            (fun _ => mret (setIsBinary false (setFileContent "" s)));
      mret (if showLoading then setLoading false s else s)
    else
      diff ← getRawDiff h t filename;
      let s := setIsBinary false (setFileContent "" (setRawDiff diff s)) in
      mret (if showLoading then setLoading false s else s).

End DiffPane.

(* --------------------------------------------------------------------- *)
(** ** Command line (src/index.tsx) *)
Module Cli.

(** [parseArgs] either returns its result object or leaves the process
    through [showHelp], [showVersion] (both [process.exit(0)]) or
    [process.exit(1)] after an error message.  The result object has one
    optional field, [path]. *)
Inductive Outcome : Type :=
| Parsed (path : option string)
| ShowHelp
| ShowVersion
| PathRequiresArgument
| UnknownOption (arg : string).

(** The [for] loop from index [i] on, [args] being the arguments not yet
    read and [result] the field [result.path] so far; [i++] inside the
    [--path] branch skips the value. *)
Fixpoint parseLoop (args : list string) (result : option string) : Outcome :=
  match args with
  | [] => Parsed result
  | arg :: rest =>
      if (arg =? "--help")%string || (arg =? "-h")%string then ShowHelp
      else if (arg =? "--version")%string || (arg =? "-v")%string then ShowVersion
      else if (arg =? "--path")%string || (arg =? "-p")%string then
        match rest with
        | value :: rest => parseLoop rest (Some value)
        | [] => PathRequiresArgument
        end
      else UnknownOption arg
  end.

(** [process.argv.slice(2)] *)
Definition parseArgs (argv : list string) : Outcome :=
  parseLoop (drop 2 argv) None.

(** The shape of a command line that [parseArgs] returns from: pairs of a
    path option and its value. *)
Definition isPathOption (arg : string) : Prop :=
  arg = "--path" \/ arg = "-p".

Definition optionPairs (pairs : list (string * string)) : list string :=
  flat_map (fun p => [fst p; snd p]) pairs.

(** [result.path] after the pairs, starting from [result]. *)
Definition lastPath (pairs : list (string * string)) (result : option string)
  : option string :=
  match last pairs with
  | Some p => Some (snd p)
  | None => result
  end.

End Cli.

(* ===================================================================== *)
(** * Part II: properties *)
(* ===================================================================== *)

Import Git App Spec SpecMore.

(** ** Status resolution *)
Section StatusResolution.

Lemma inRenamed_renameList (status : StatusResult.t) (p : string) :
  inRenamed status p = inRenameList (renameList status) p.
Proof.
  unfold inRenamed, renameList, inRenameList.
  destruct (StatusResult.renamed status); reflexivity.
Qed.

Lemma includes_empty_letter (c : ascii) : includes "" (String c "") = false.
Proof. reflexivity. Qed.

Lemma includes_blank_letter (c : ascii) :
  c <> " "%char -> includes " " (String c "") = false.
Proof.
  intros Hc. cbn.
  destruct (ascii_dec c " ") as [->|_]; [congruence | reflexivity].
Qed.

Lemma includes_orDefault (flag : option string) (c : ascii) :
  c <> " "%char ->
  includes (orDefault flag " ") (String c "") = flagContains flag (String c "").
Proof.
  intros Hc. destruct flag as [[|a s]|]; cbn [orDefault truthy flagContains].
  - rewrite includes_blank_letter by assumption. reflexivity.
  - reflexivity.
  - apply includes_blank_letter; assumption.
Qed.

Lemma eqb_orDefault_letter (flag : option string) (c : ascii) :
  c <> " "%char ->
  String.eqb (orDefault flag " ") (String c "") = flagIs flag (String c "").
Proof.
  intros Hc.
  assert (Hb : String.eqb " " (String c "") = false).
  { apply String.eqb_neq. congruence. }
  destruct flag as [[|a s]|]; cbn [orDefault truthy flagIs]; auto.
Qed.

Lemma eqb_orDefault_blank (flag : option string) :
  String.eqb (orDefault flag " ") " " = flagEmpty flag.
Proof.
  destruct flag as [[|a s]|]; reflexivity.
Qed.

(** The callback of [forEach] adds the record that the rule table
    selects, or leaves the state alone when no rule applies. *)
Lemma forEachFile_priorityRule (status : StatusResult.t) (st : Collected)
    (file : FileStatusResult.t) :
  forEachFile status st file =
  match priorityRule (renameList status) file with
  | Some kind => addFileIfUnique st (FileStatusResult.path file) kind
  | None => st
  end.
Proof.
  unfold forEachFile, priorityRule.
  rewrite inRenamed_renameList.
  rewrite eqb_orDefault_blank.
  rewrite !includes_orDefault, !eqb_orDefault_letter by discriminate.
  repeat match goal with
         | |- context [if ?b then _ else _] => destruct b; try reflexivity
         end.
Qed.

End StatusResolution.

(** C1. Every raw entry of the flag-tuple path is given the kind of the
    first rule that matches it, in the order: in the rename list (as [to]
    or [from]), a flag containing [D], both flags exactly [?], an index
    flag containing [A] and other than [?], an empty-or-[M] index flag
    with a working flag that is or contains [M]; an entry that matches no
    rule produces no record.  An entry in the rename list whose index flag
    is [A] is [renamed]. *)
Theorem status_resolution_first_match :
  (forall status st file,
     forEachFile status st file =
     match priorityRule (renameList status) file with
     | Some kind => addFileIfUnique st (FileStatusResult.path file) kind
     | None => st
     end)
  /\ (forall status st file,
        FileStatusResult.path file ∉ uniquePaths st ->
        fileList (forEachFile status st file) =
        match priorityRule (renameList status) file with
        | Some kind =>
            fileList st ++ [mkFileStatus (FileStatusResult.path file) kind 0]
        | None => fileList st
        end)
  /\ (forall status files,
        StatusResult.files status = Some files ->
        collectFiles status = fold_left (forEachFile status) files emptyCollected)
  /\ priorityRule [mkRename "old.ts" "new.ts"] (Sample.entry "new.ts" "A" " ")
     = Some renamed
  /\ fileList (collectFiles (Sample.report [Sample.entry "new.ts" "A" " "]
                                           [mkRename "old.ts" "new.ts"]))
     = [mkFileStatus "new.ts" renamed 0].
Proof.
  split; [exact forEachFile_priorityRule|].
  split.
  { intros status st file Hnew. rewrite forEachFile_priorityRule.
    destruct (priorityRule (renameList status) file); [|reflexivity].
    unfold addFileIfUnique.
    destruct (decide (FileStatusResult.path file ∈ uniquePaths st));
      [contradiction | reflexivity]. }
  split; [intros status files H; unfold collectFiles; rewrite H; reflexivity|].
  split; vm_compute; reflexivity.
Qed.

(** ** Deduplication *)
Section Dedup.

Lemma addCalls_app (st : Collected) (xs ys : list (string * Status)) :
  addCalls st (xs ++ ys) = addCalls (addCalls st xs) ys.
Proof. unfold addCalls. apply fold_left_app. Qed.

Lemma forEachFile_fold (status : StatusResult.t) (files : list FileStatusResult.t) :
  forall st,
    fold_left (forEachFile status) files st =
    addCalls st (omap (fun e => k ← priorityRule (renameList status) e;
                                Some (FileStatusResult.path e, k)) files).
Proof.
  induction files as [|e files IH]; intros st; [reflexivity|].
  simpl. rewrite forEachFile_priorityRule.
  destruct (priorityRule (renameList status) e) as [k|]; simpl; apply IH.
Qed.

Lemma forEachPath_addCalls (kind : Status) (l : option (list string)) (st : Collected) :
  forEachPath kind l st = addCalls st (map (fun p => (p, kind)) (default [] l)).
Proof.
  unfold forEachPath, addCalls. generalize (default [] l) as ps. intros ps. revert st.
  induction ps as [|p ps IH]; intros st; [reflexivity|]. cbn. apply IH.
Qed.

Lemma forEachRename_addCalls (rs : list Rename) (st : Collected) :
  fold_left (fun st rename => addFileIfUnique st (to rename) renamed) rs st
  = addCalls st (map (fun r => (to r, renamed)) rs).
Proof.
  unfold addCalls. revert st.
  induction rs as [|r rs IH]; intros st; [reflexivity|]. cbn. apply IH.
Qed.

(** Both branches of the Normalizer perform the calls of [resolutions],
    in that order. *)
Lemma collectFiles_resolutions (status : StatusResult.t) :
  collectFiles status = addCalls emptyCollected (resolutions status).
Proof.
  unfold collectFiles, resolutions.
  destruct (StatusResult.files status) as [files|].
  - apply forEachFile_fold.
  - unfold flatResolutions, renameList. rewrite !addCalls_app.
    rewrite forEachRename_addCalls, !forEachPath_addCalls. reflexivity.
Qed.

Lemma firstResolved_app (xs ys : list (string * Status)) (p : string) :
  firstResolved (xs ++ ys) p =
  match firstResolved xs p with
  | Some k => Some k
  | None => firstResolved ys p
  end.
Proof.
  induction xs as [|[q k] xs IH]; [reflexivity|].
  cbn. destruct (String.eqb q p); [reflexivity | exact IH].
Qed.

Lemma Reflects_empty : Reflects [] emptyCollected.
Proof.
  split; cbn.
  - intros p. split; [set_solver | intros [? ?]; discriminate].
  - constructor.
  - intros r Hr. inversion Hr.
  - intros p [? ?]; discriminate.
Qed.

Lemma Reflects_add (calls : list (string * Status)) (st : Collected)
    (p : string) (k : Status) :
  Reflects calls st -> Reflects (calls ++ [(p, k)]) (addFileIfUnique st p k).
Proof.
  intros [Hseen Hnd Hfirst Hall]. unfold addFileIfUnique.
  destruct (decide (p ∈ uniquePaths st)) as [Hin|Hnin].
  - (* already seen: the call is ignored *)
    pose proof (proj1 (Hseen p) Hin) as [k0 Hk0].
    split.
    + intros q. rewrite firstResolved_app, Hseen.
      destruct (firstResolved calls q) eqn:E; [split; eauto|].
      cbn. destruct (String.eqb_spec p q) as [->|]; [congruence|].
      split; intros [? ?]; discriminate.
    + exact Hnd.
    + intros r Hr. destruct (Hfirst r Hr) as [H1 H2].
      rewrite firstResolved_app, H1. auto.
    + intros q. rewrite firstResolved_app.
      destruct (firstResolved calls q) eqn:E; [intros _; apply Hall; rewrite E; eauto|].
      cbn. destruct (String.eqb_spec p q) as [->|]; [congruence|].
      intros [? ?]; discriminate.
  - (* first resolution for this path: the record is appended *)
    assert (Hnone : firstResolved calls p = None).
    { destruct (firstResolved calls p) eqn:E; [|reflexivity].
      exfalso. apply Hnin, Hseen. rewrite E. eauto. }
    split; cbn [uniquePaths fileList].
    + intros q. rewrite firstResolved_app, elem_of_union, elem_of_singleton, Hseen.
      destruct (firstResolved calls q) eqn:E.
      * split; eauto.
      * cbn. destruct (String.eqb_spec p q) as [->|Hne].
        -- split; eauto.
        -- split; [intros [->|[? ?]]; [congruence|discriminate]
                  | intros [? ?]; discriminate].
    + rewrite map_app. cbn. apply NoDup_app. split; [exact Hnd|].
      split; [|apply NoDup_singleton].
      intros q Hq Hq'. apply list_elem_of_singleton in Hq'. subst q.
      apply Hnin, Hseen.
      apply list_elem_of_fmap in Hq as [r [Hp Hr]].
      destruct (Hfirst r Hr) as [H1 _]. rewrite Hp, H1. eauto.
    + intros r Hr. apply elem_of_app in Hr as [Hr|Hr].
      * destruct (Hfirst r Hr) as [H1 H2].
        rewrite firstResolved_app, H1. auto.
      * apply list_elem_of_singleton in Hr. subst r. cbn.
        rewrite firstResolved_app, Hnone. cbn. rewrite String.eqb_refl. auto.
    + intros q. rewrite firstResolved_app, map_app, elem_of_app.
      destruct (firstResolved calls q) eqn:E.
      * intros _. left. apply Hall. rewrite E. eauto.
      * cbn. destruct (String.eqb_spec p q) as [->|Hne].
        -- intros _. right. apply list_elem_of_singleton. reflexivity.
        -- intros [? ?]; discriminate.
Qed.

Lemma Reflects_addCalls (calls : list (string * Status)) :
  forall pre st, Reflects pre st -> Reflects (pre ++ calls) (addCalls st calls).
Proof.
  induction calls as [|[p k] calls IH]; intros pre st H.
  - rewrite app_nil_r. exact H.
  - cbn. replace (pre ++ (p, k) :: calls) with ((pre ++ [(p, k)]) ++ calls)
      by (rewrite <- app_assoc; reflexivity).
    apply IH, Reflects_add, H.
Qed.

Lemma Reflects_collectFiles (status : StatusResult.t) :
  Reflects (resolutions status) (collectFiles status).
Proof.
  rewrite collectFiles_resolutions.
  apply (Reflects_addCalls (resolutions status) [] emptyCollected Reflects_empty).
Qed.

End Dedup.

(** ** The pipeline of [getChangedFiles] *)
Section Pipeline.

Lemma getRepoRoot_repoRoot (h : Host) : getRepoRoot h = Ret (repoRoot h).
Proof.
  unfold repoRoot, getRepoRoot.
  destruct (simpleGit h) as [u|e]; cbn; [|reflexivity].
  destruct (git_revparse h ["--show-toplevel"]); reflexivity.
Qed.

Lemma statFile_enriched (h : Host) (root : string) (f : FileStatus) :
  statFile h root f = Ret (enriched h root f).
Proof.
  unfold statFile, enriched, mtimeOf.
  destruct (fs_stat h (absPath h root f)); reflexivity.
Qed.

Lemma enrich_map (h : Host) (root : string) (l : list FileStatus) :
  enrich h root l = Ret (map (enriched h root) l).
Proof.
  unfold enrich. induction l as [|f l IH]; [reflexivity|].
  cbn [map JSArray.promiseAll]. rewrite statFile_enriched, IH. reflexivity.
Qed.

(** The three ways a call of [getChangedFiles] can go. *)
Lemma getChangedFiles_cases (h : Host) :
  getChangedFiles h =
  match simpleGit h, git_status h with
  | Ret _, Ret status => Ret (snapshotOf h status)
  | _, _ => Ret []
  end.
Proof.
  unfold getChangedFiles, getChangedFiles_body, snapshotOf.
  destruct (simpleGit h) as [u|e]; [|reflexivity].
  destruct (git_status h) as [status|e]; [|reflexivity].
  cbn. rewrite getRepoRoot_repoRoot. cbn. rewrite enrich_map. reflexivity.
Qed.

Lemma getChangedFiles_ok (h : Host) (status : StatusResult.t) :
  simpleGit h = Ret tt -> git_status h = Ret status ->
  getChangedFiles h = Ret (snapshotOf h status).
Proof.
  intros H1 H2. rewrite getChangedFiles_cases, H1, H2. reflexivity.
Qed.

End Pipeline.

(** ** The stable sort *)
Section Sort.

Context {A : Type} (cmp : A -> A -> Z).

Lemma insertSorted_perm (x : A) (l : list A) :
  JSArray.insertSorted cmp x l ≡ₚ x :: l.
Proof.
  induction l as [|y l IH]; cbn; [reflexivity|].
  destruct (cmp x y <=? 0); [reflexivity|].
  rewrite IH. apply perm_swap.
Qed.

Lemma sort_perm (l : list A) : JSArray.sort cmp l ≡ₚ l.
Proof.
  induction l as [|x l IH]; cbn; [reflexivity|].
  rewrite insertSorted_perm, IH. reflexivity.
Qed.

(** An order [R] that the comparator decides. *)
Variable R : A -> A -> Prop.
Hypothesis R_le : forall x y, cmp x y <= 0 -> R x y.
Hypothesis R_gt : forall x y, 0 < cmp x y -> R y x.
Hypothesis R_trans : forall x y z, R x y -> R y z -> R x z.

Lemma insertSorted_sorted (x : A) (l : list A) :
  StronglySorted R l -> StronglySorted R (JSArray.insertSorted cmp x l).
Proof.
  induction l as [|y l IH]; intros Hs; cbn.
  - repeat constructor.
  - apply StronglySorted_inv in Hs as [Hs Hy].
    destruct (Z.leb_spec (cmp x y) 0) as [Hle|Hgt].
    + constructor; [constructor; assumption|].
      constructor; [apply R_le, Hle|].
      eapply Forall_impl; [exact Hy|]. intros z Hz.
      eapply R_trans; [apply R_le, Hle | exact Hz].
    + constructor; [apply IH, Hs|].
      rewrite insertSorted_perm. constructor; [apply R_gt, Hgt | exact Hy].
Qed.

Lemma sort_sorted (l : list A) : StronglySorted R (JSArray.sort cmp l).
Proof.
  induction l as [|x l IH]; cbn; [constructor | apply insertSorted_sorted, IH].
Qed.

(** Two sorted arrangements of the same elements coincide when [R]
    relates no two different elements both ways. *)
Lemma sorted_perm_unique (l1 : list A) :
  forall l2,
    StronglySorted R l1 -> StronglySorted R l2 -> l1 ≡ₚ l2 ->
    (forall x y, x ∈ l1 -> y ∈ l1 -> R x y -> R y x -> x = y) ->
    l1 = l2.
Proof.
  induction l1 as [|x l1 IH]; intros l2 H1 H2 Hp Hanti.
  - apply Permutation_nil in Hp. congruence.
  - destruct l2 as [|y l2]; [symmetry in Hp; apply Permutation_nil in Hp; discriminate|].
    apply StronglySorted_inv in H1 as [H1 Hx].
    apply StronglySorted_inv in H2 as [H2 Hy].
    assert (Hxy : x = y).
    { assert (Hxin : x ∈ y :: l2) by (rewrite <- Hp; left).
      assert (Hyin : y ∈ x :: l1) by (rewrite Hp; left).
      apply elem_of_cons in Hxin as [?|Hxin]; [assumption|].
      apply elem_of_cons in Hyin as [?|Hyin]; [congruence|].
      apply Hanti; [left | right; assumption | |].
      - rewrite Forall_forall in Hx. apply Hx, Hyin.
      - rewrite Forall_forall in Hy. apply Hy, Hxin. }
    subst y. f_equal. apply IH; try assumption.
    + eapply Permutation_cons_inv; exact Hp.
    + intros a b Ha Hb. apply Hanti; right; assumption.
Qed.

End Sort.

(** ** The order of the snapshot *)
Section Stability.

Context {A : Type} (cmp : A -> A -> Z).
Context (P : A -> Prop) `{!forall x, Decision (P x)}.

Lemma insertSorted_filter (x : A) (l : list A) :
  (P x -> forall y, y ∈ l -> P y -> cmp x y <= 0) ->
  filter P (JSArray.insertSorted cmp x l) = filter P (x :: l).
Proof.
  induction l as [|y l IH]; intros Hx; cbn [JSArray.insertSorted]; [reflexivity|].
  destruct (Z.leb_spec (cmp x y) 0) as [Hle|Hgt]; [reflexivity|].
  assert (IH' : filter P (JSArray.insertSorted cmp x l) = filter P (x :: l)).
  { apply IH. intros Hp z Hz. apply Hx; [assumption | right; assumption]. }
  rewrite (filter_cons P y), IH', !filter_cons.
  destruct (decide (P x)) as [Hpx|Hnpx]; [|reflexivity].
  destruct (decide (P y)) as [Hpy|Hnpy]; [|reflexivity].
  specialize (Hx Hpx y ltac:(left) Hpy). lia.
Qed.

Lemma sort_filter (l : list A) :
  (forall x y, P x -> P y -> cmp x y <= 0) ->
  filter P (JSArray.sort cmp l) = filter P l.
Proof.
  intros Hcmp. induction l as [|x l IH]; [reflexivity|]. cbn [JSArray.sort].
  rewrite insertSorted_filter by (intros Hx y _ Hy; apply Hcmp; assumption).
  rewrite !filter_cons, IH. reflexivity.
Qed.

End Stability.

Section SnapshotOrder.

Variable h : Host.
Hypothesis Hlc : Consistent (localeCompare h).

Lemma localeCompare_flip (a b : string) :
  (0 < localeCompare h a b -> localeCompare h b a < 0)
  /\ (localeCompare h a b = 0 -> localeCompare h b a = 0)
  /\ (localeCompare h a b < 0 -> 0 < localeCompare h b a).
Proof.
  pose proof (consistent_sgn _ Hlc a b) as Hs.
  destruct (Z.sgn_spec (localeCompare h a b)) as [[? E1]|[[? E1]|[? E1]]];
    destruct (Z.sgn_spec (localeCompare h b a)) as [[? E2]|[[? E2]|[? E2]]];
    rewrite E1, E2 in Hs; lia.
Qed.

Lemma compareFiles_le (a b : FileStatus) :
  compareFiles h a b <= 0 <-> collatedOrder (localeCompare h) a b.
Proof.
  unfold compareFiles, collatedOrder.
  destruct (Z.eqb_spec (mtime b - mtime a) 0) as [E|E]; cbn [negb]; lia.
Qed.

Lemma compareFiles_gt (a b : FileStatus) :
  0 < compareFiles h a b -> collatedOrder (localeCompare h) b a.
Proof.
  unfold compareFiles, collatedOrder.
  destruct (Z.eqb_spec (mtime b - mtime a) 0) as [E|E]; cbn [negb]; [|lia].
  intros H. apply localeCompare_flip in H. lia.
Qed.

Lemma collatedOrder_trans (a b c : FileStatus) :
  collatedOrder (localeCompare h) a b -> collatedOrder (localeCompare h) b c ->
  collatedOrder (localeCompare h) a c.
Proof.
  unfold collatedOrder. intros [H1|[H1 L1]] [H2|[H2 L2]]; try lia.
  right. split; [lia|]. eapply (consistent_trans _ Hlc); eassumption.
Qed.

Lemma collatedOrder_both (a b : FileStatus) :
  collatedOrder (localeCompare h) a b -> collatedOrder (localeCompare h) b a ->
  mtime a = mtime b /\ localeCompare h (path a) (path b) = 0.
Proof.
  unfold collatedOrder. intros [H1|[H1 L1]] [H2|[H2 L2]]; try lia.
  split; [assumption|].
  destruct (Z.lt_trichotomy (localeCompare h (path a) (path b)) 0) as [H|[H|H]];
    [apply localeCompare_flip in H; lia | assumption | lia].
Qed.

Lemma sortFiles_perm (l : list FileStatus) : sortFiles h l ≡ₚ l.
Proof. apply sort_perm. Qed.

Lemma sortFiles_sorted (l : list FileStatus) :
  StronglySorted (collatedOrder (localeCompare h)) (sortFiles h l).
Proof.
  apply sort_sorted.
  - intros x y. apply compareFiles_le.
  - apply compareFiles_gt.
  - apply collatedOrder_trans.
Qed.

Lemma compareFiles_zero_flip (a b : FileStatus) :
  compareFiles h a b = 0 -> compareFiles h b a = 0.
Proof.
  unfold compareFiles.
  destruct (Z.eqb_spec (mtime b - mtime a) 0) as [E|E]; cbn [negb]; [|lia].
  intros H. apply localeCompare_flip in H.
  destruct (Z.eqb_spec (mtime a - mtime b) 0) as [E'|E']; cbn [negb]; lia.
Qed.

(** Records between which the comparator returns [0] keep the order
    they had in the input. *)
Lemma sortFiles_stable (l : list FileStatus) (a : FileStatus) :
  filter (fun x => compareFiles h a x = 0) (sortFiles h l)
  = filter (fun x => compareFiles h a x = 0) l.
Proof.
  apply sort_filter. intros x y Hx Hy.
  apply compareFiles_le. apply collatedOrder_trans with a.
  - apply compareFiles_le. apply compareFiles_zero_flip in Hx. lia.
  - apply compareFiles_le. lia.
Qed.

Lemma NoDup_map_inj (l : list FileStatus) (x y : FileStatus) :
  NoDup (map path l) -> x ∈ l -> y ∈ l -> path x = path y -> x = y.
Proof.
  induction l as [|z l IH]; intros Hnd Hx Hy Hp; [inversion Hx|].
  cbn in Hnd. apply NoDup_cons in Hnd as [Hz Hnd].
  apply elem_of_cons in Hx as [->|Hx]; apply elem_of_cons in Hy as [->|Hy].
  - reflexivity.
  - exfalso. apply Hz. rewrite Hp. apply list_elem_of_fmap. eauto.
  - exfalso. apply Hz. rewrite <- Hp. apply list_elem_of_fmap. eauto.
  - apply IH; assumption.
Qed.

(** The order of the output does not depend on the order of the input
    when the comparison ties no two records of the list. *)
Lemma sortFiles_deterministic (l l' : list FileStatus) :
  NoDup (map path l) -> SeparatesTies (localeCompare h) l -> l' ≡ₚ l ->
  sortFiles h l' = sortFiles h l.
Proof.
  intros Hnd Hsep Hp.
  apply (sorted_perm_unique (collatedOrder (localeCompare h))).
  - apply sortFiles_sorted.
  - apply sortFiles_sorted.
  - rewrite !sortFiles_perm. exact Hp.
  - intros x y Hx Hy Hxy Hyx.
    rewrite sortFiles_perm, Hp in Hx, Hy.
    destruct (collatedOrder_both x y Hxy Hyx) as [Ht Hl].
    apply (NoDup_map_inj l); auto.
Qed.

End SnapshotOrder.

(** ** The modelled collation is a consistent comparator *)
Section CollationLaws.

Lemma scmp_eq (a b : string) : String_as_OT.compare a b = Eq -> a = b.
Proof.
  intros H. destruct (String_as_OT.compare_spec a b); [assumption | discriminate..].
Qed.

Lemma slt_irrefl (a : string) : ~ String_as_OT.lt a a.
Proof. apply (StrictOrder_Irreflexive (R := String_as_OT.lt)). Qed.

Lemma slt_trans (a b c : string) :
  String_as_OT.lt a b -> String_as_OT.lt b c -> String_as_OT.lt a c.
Proof. apply (StrictOrder_Transitive (R := String_as_OT.lt)). Qed.

Lemma scmp_flip (a b : string) :
  String_as_OT.compare b a = CompOpp (String_as_OT.compare a b).
Proof.
  destruct (String_as_OT.compare_spec a b) as [E|L|L];
    destruct (String_as_OT.compare_spec b a) as [E'|L'|L']; try reflexivity;
    exfalso; unfold String_as_OT.eq in *; subst;
    first [ eapply slt_irrefl; eassumption
          | eapply slt_irrefl, slt_trans; eassumption ].
Qed.

Lemma scmp_le_trans (a b c : string) :
  String_as_OT.compare a b <> Gt -> String_as_OT.compare b c <> Gt ->
  String_as_OT.compare a c <> Gt.
Proof.
  intros H1 H2.
  destruct (String_as_OT.compare_spec a b) as [E|L|L]; [unfold String_as_OT.eq in E; subst; assumption| |congruence].
  destruct (String_as_OT.compare_spec b c) as [E|L'|L']; [unfold String_as_OT.eq in E; subst| |congruence].
  - unfold String_as_OT.lt in L. rewrite L. discriminate.
  - pose proof (slt_trans _ _ _ L L') as T.
    unfold String_as_OT.lt in T. rewrite T. discriminate.
Qed.

Lemma scmp_lt_le_trans (a b c : string) :
  String_as_OT.compare a b = Lt -> String_as_OT.compare b c <> Gt ->
  String_as_OT.compare a c = Lt.
Proof.
  intros H1 H2.
  destruct (String_as_OT.compare_spec b c) as [E|L'|L']; [unfold String_as_OT.eq in E; subst; assumption| |congruence].
  exact (slt_trans _ _ _ H1 L').
Qed.

Lemma swapCase_involutive (c : ascii) :
  Collation.swapCase (Collation.swapCase c) = c.
Proof.
  destruct c as [[] [] [] [] [] [] [] []]; vm_compute; reflexivity.
Qed.

Lemma mapString_swapCase_inj (a b : string) :
  Collation.mapString Collation.swapCase a = Collation.mapString Collation.swapCase b ->
  a = b.
Proof.
  revert b. induction a as [|c a IH]; intros [|d b] H; cbn in H; try discriminate.
  - reflexivity.
  - injection H as Hc Hs. f_equal; [|apply IH, Hs].
    rewrite <- (swapCase_involutive c), Hc. apply swapCase_involutive.
Qed.

Lemma collate_flip (a b : string) :
  Collation.collate b a = CompOpp (Collation.collate a b).
Proof.
  unfold Collation.collate.
  rewrite (scmp_flip (Collation.mapString Collation.foldCase a)).
  destruct (String_as_OT.compare _ _); cbn; [apply scmp_flip | reflexivity..].
Qed.

Lemma collate_le_trans (a b c : string) :
  Collation.collate a b <> Gt -> Collation.collate b c <> Gt ->
  Collation.collate a c <> Gt.
Proof.
  unfold Collation.collate.
  set (fa := Collation.mapString Collation.foldCase a).
  set (fb := Collation.mapString Collation.foldCase b).
  set (fc := Collation.mapString Collation.foldCase c).
  intros H1 H2.
  destruct (String_as_OT.compare fa fb) eqn:Eab; [| |congruence].
  - apply scmp_eq in Eab. rewrite Eab.
    destruct (String_as_OT.compare fb fc) eqn:Ebc; [| discriminate |congruence].
    eapply scmp_le_trans; eassumption.
  - destruct (String_as_OT.compare fb fc) eqn:Ebc; [| |congruence].
    + apply scmp_eq in Ebc. rewrite <- Ebc, Eab. discriminate.
    + rewrite (scmp_lt_le_trans fa fb fc Eab); [discriminate | congruence].
Qed.

Lemma collate_eq (a b : string) : Collation.collate a b = Eq -> a = b.
Proof.
  unfold Collation.collate.
  destruct (String_as_OT.compare _ _); [|discriminate..].
  intros H. apply mapString_swapCase_inj, scmp_eq, H.
Qed.

Lemma collation_consistent : Consistent Collation.localeCompare.
Proof.
  split; unfold Collation.localeCompare.
  - intros a b.
    rewrite (collate_flip (removeAll Collation.ignorable a)
                          (removeAll Collation.ignorable b)).
    destruct (Collation.collate _ _); reflexivity.
  - intros a b c H1 H2.
    pose proof (collate_le_trans (removeAll Collation.ignorable a)
                  (removeAll Collation.ignorable b)
                  (removeAll Collation.ignorable c)) as T.
    destruct (Collation.collate (removeAll Collation.ignorable a)
                                (removeAll Collation.ignorable b)),
             (Collation.collate (removeAll Collation.ignorable b)
                                (removeAll Collation.ignorable c)); try lia;
      destruct (Collation.collate (removeAll Collation.ignorable a)
                                  (removeAll Collation.ignorable c));
      try lia; exfalso; apply T; congruence.
Qed.

(** The modelled collation ties no two different paths that are free of
    soft hyphens. *)
Lemma collation_separates (l : list FileStatus) :
  Forall (fun f => removeAll Collation.ignorable (path f) = path f) l ->
  SeparatesTies Collation.localeCompare l.
Proof.
  intros Hplain a b Ha Hb _. unfold Collation.localeCompare.
  rewrite Forall_forall in Hplain.
  rewrite (Hplain a Ha), (Hplain b Hb).
  destruct (Collation.collate (path a) (path b)) eqn:E;
    [intros _; apply collate_eq, E | lia..].
Qed.

End CollationLaws.

(** ** The claims about [getChangedFiles] *)

(** C2. Whichever shape the status report has (flag tuples or flat
    lists), the file list of [getChangedFiles] holds at most one record
    per path; the record of a path carries the kind of the first raw entry
    that resolved for that path, later entries for the path being ignored;
    and every path with a resolved entry has its record.  This holds of
    the list the Normalizer builds and of the snapshot returned. *)
Theorem snapshot_one_record_per_path (h : Host) (report : StatusResult.t) :
  simpleGit h = Ret tt ->
  git_status h = Ret report ->
  Reflects (resolutions report) (collectFiles report)
  /\ exists out,
       getChangedFiles h = Ret out
       /\ NoDup (map path out)
       /\ (forall r, r ∈ out ->
             firstResolved (resolutions report) (path r) = Some (status r))
       /\ (forall p, is_Some (firstResolved (resolutions report) p) ->
             p ∈ map path out).
Proof.
  intros Hgit Hstatus.
  pose proof (Reflects_collectFiles report) as Hrefl.
  split; [exact Hrefl|].
  destruct Hrefl as [_ Hnd Hfirst Hall].
  exists (snapshotOf h report).
  split; [apply getChangedFiles_ok; assumption|].
  assert (Hpaths : map path (snapshotOf h report)
                   ≡ₚ map path (fileList (collectFiles report))).
  { unfold snapshotOf. rewrite sortFiles_perm, map_map. reflexivity. }
  split; [rewrite Hpaths; exact Hnd|].
  split.
  - intros r Hr. unfold snapshotOf in Hr. rewrite sortFiles_perm in Hr.
    apply list_elem_of_fmap in Hr as [r0 [-> Hr0]].
    apply (Hfirst r0 Hr0).
  - intros p Hp. rewrite Hpaths. apply Hall, Hp.
Qed.

Lemma snapshot_one_record_per_path_witness :
  let report := Sample.report [Sample.entry "a.ts" " " "M";
                               Sample.entry "a.ts" "A" " ";
                               Sample.entry "b.ts" "?" "?"] [] in
  let h := Sample.withStatus Sample.quietHost (Ret report) in
  Reflects (resolutions report) (collectFiles report)
  /\ exists out,
       getChangedFiles h = Ret out
       /\ NoDup (map path out)
       /\ (forall r, r ∈ out ->
             firstResolved (resolutions report) (path r) = Some (status r))
       /\ (forall p, is_Some (firstResolved (resolutions report) p) ->
             p ∈ map path out).
Proof.
  apply (snapshot_one_record_per_path
           (Sample.withStatus Sample.quietHost
              (Ret (Sample.report [Sample.entry "a.ts" " " "M";
                                   Sample.entry "a.ts" "A" " ";
                                   Sample.entry "b.ts" "?" "?"] []))));
    reflexivity.
Defined.

(** C3, as the code has it.  The snapshot is sorted by modification time
    descending, equal times being ordered by path ascending under the
    comparison of [localeCompare] (the collation of the host's locale, not
    the code-unit lexicographic order), for every comparison that is
    consistent.  The sort is stable: records that compare equal keep their
    input order.  Two lists of the same records with pairwise different
    paths are put in the same order when the comparison returns 0 on no
    two different paths of the list that have the same time. *)
Theorem snapshot_sorted_by_collation (h : Host) :
  Consistent (localeCompare h) ->
  (forall l, sortFiles h l ≡ₚ l
             /\ StronglySorted (collatedOrder (localeCompare h)) (sortFiles h l))
  /\ (forall out, getChangedFiles h = Ret out ->
                  StronglySorted (collatedOrder (localeCompare h)) out)
  /\ (forall l a, filter (fun x => compareFiles h a x = 0) (sortFiles h l)
                  = filter (fun x => compareFiles h a x = 0) l)
  /\ (forall l l', NoDup (map path l) -> SeparatesTies (localeCompare h) l ->
                   l' ≡ₚ l -> sortFiles h l' = sortFiles h l).
Proof.
  intros Hlc. split; [|split; [|split]].
  - intros l. split; [apply sortFiles_perm | apply sortFiles_sorted, Hlc].
  - intros out. rewrite getChangedFiles_cases.
    destruct (simpleGit h); [destruct (git_status h)|]; intros [= <-];
      solve [apply sortFiles_sorted, Hlc | constructor].
  - intros l a. apply sortFiles_stable, Hlc.
  - intros l l'. apply sortFiles_deterministic, Hlc.
Qed.

Lemma snapshot_sorted_by_collation_witness :
  let h := Sample.quietHost in
  let l := [mkFileStatus "b.ts" unstaged 5; mkFileStatus "A.ts" new 5;
            mkFileStatus "a.ts" unstaged 5; mkFileStatus "c.ts" deleted 7] in
  (forall l, sortFiles h l ≡ₚ l
             /\ StronglySorted (collatedOrder (localeCompare h)) (sortFiles h l))
  /\ (forall out, getChangedFiles h = Ret out ->
                  StronglySorted (collatedOrder (localeCompare h)) out)
  /\ (forall l a, filter (fun x => compareFiles h a x = 0) (sortFiles h l)
                  = filter (fun x => compareFiles h a x = 0) l)
  /\ sortFiles h (reverse l) = sortFiles h l.
Proof.
  destruct (snapshot_sorted_by_collation Sample.quietHost collation_consistent)
    as (H1 & H2 & H3 & H4).
  split; [exact H1|]. split; [exact H2|]. split; [exact H3|].
  apply H4.
  - apply (bool_decide_unpack _). vm_compute. exact I.
  - apply collation_separates. repeat constructor.
  - apply reverse_Permutation.
Defined.

(** Without that proviso the order of the output follows the order of
    the input: "ab" and "a", soft hyphen, "b" compare equal, so at equal
    times the stable sort leaves them as they came. *)
Example snapshot_order_follows_input_on_ties :
  let h := Sample.quietHost in
  let x := mkFileStatus "ab" unstaged 5 in
  let y := mkFileStatus ("a" +:+ Sample.SHY +:+ "b") unstaged 5 in
  compareFiles h x y = 0
  /\ sortFiles h [x; y] = [x; y]
  /\ sortFiles h [y; x] = [y; x].
Proof. vm_compute. repeat split. Qed.

(** C3, as stated, fails: two changed files "B" and "a" whose stat fails
    both get the epoch, and the snapshot lists "a" before "B", while "B"
    precedes "a" lexicographically. *)
Lemma snapshot_not_lexicographic :
  let h := Sample.withStat
             (Sample.withStatus Sample.quietHost
                (Ret (Sample.report [Sample.entry "B" " " "M";
                                     Sample.entry "a" " " "M"] [])))
             (fun _ => Throw "ENOENT") in
  getChangedFiles h = Ret [mkFileStatus "a" unstaged 0; mkFileStatus "B" unstaged 0]
  /\ ~ Sorted lexOrder [mkFileStatus "a" unstaged 0; mkFileStatus "B" unstaged 0].
Proof.
  split; [vm_compute; reflexivity|].
  intros H. apply Sorted_inv in H as [_ H]. apply HdRel_inv in H.
  destruct H as [H|[_ H]]; [cbn in H; lia | apply H; vm_compute; reflexivity].
Qed.

(** C5. [getChangedFiles] always resolves with a list: when the status
    query throws, or the construction of the git client does, or anything
    else makes the body of its [try] block throw, the list is empty.  The
    failures of [getRepoRoot] and of [stat] are handled where they occur
    and never reach that handler. *)
Theorem getChangedFiles_never_throws :
  (forall h, exists out, getChangedFiles h = Ret out)
  /\ (forall h e, git_status h = Throw e -> getChangedFiles h = Ret [])
  /\ (forall h e, simpleGit h = Throw e -> getChangedFiles h = Ret [])
  /\ (forall h e, getChangedFiles_body h = Throw e -> getChangedFiles h = Ret [])
  /\ (forall h e, getChangedFiles_body h = Throw e ->
                  simpleGit h = Throw e \/ git_status h = Throw e).
Proof.
  split; [|split; [|split; [|split]]].
  - intros h. rewrite getChangedFiles_cases.
    destruct (simpleGit h); [destruct (git_status h)|]; eauto.
  - intros h e H. rewrite getChangedFiles_cases, H.
    destruct (simpleGit h); reflexivity.
  - intros h e H. rewrite getChangedFiles_cases, H. reflexivity.
  - intros h e H. unfold getChangedFiles. rewrite H. reflexivity.
  - intros h e. unfold getChangedFiles_body.
    destruct (simpleGit h) as [u|e1]; cbn; [|intros [= ->]; left; reflexivity].
    destruct (git_status h) as [report|e2]; cbn; [|intros [= ->]; right; reflexivity].
    rewrite getRepoRoot_repoRoot. cbn. rewrite enrich_map. discriminate.
Qed.

(** C6. When the stat of one absolute path fails, the records at that
    path get the epoch as their modification time, with path and kind
    kept; the batch still resolves with one record per input record, and
    every other record is enriched exactly as it is when that stat does
    not fail. *)
Theorem stat_failure_is_local (h h' : Host) (root : string) (l : list FileStatus)
    (target : string) :
  path_isAbsolute h' = path_isAbsolute h ->
  path_join h' = path_join h ->
  (exists e, fs_stat h' target = Throw e) ->
  (forall p, p <> target -> fs_stat h' p = fs_stat h p) ->
  exists out out',
    enrich h root l = Ret out
    /\ enrich h' root l = Ret out'
    /\ length out' = length l
    /\ forall i f, l !! i = Some f ->
         (absPath h root f = target ->
            out' !! i = Some {| path := path f; status := status f; mtime := 0 |})
         /\ (absPath h root f <> target -> out' !! i = out !! i).
Proof.
  intros Habs Hjoin [e Hfail] Hsame.
  exists (map (enriched h root) l), (map (enriched h' root) l).
  rewrite !enrich_map. split; [reflexivity|]. split; [reflexivity|].
  split; [apply length_map|].
  intros i f Hi.
  assert (Hp : absPath h' root f = absPath h root f).
  { unfold absPath. rewrite Habs, Hjoin. reflexivity. }
  rewrite !list_lookup_fmap, Hi. cbn. unfold enriched, mtimeOf. rewrite Hp.
  split.
  - intros ->. rewrite Hfail. reflexivity.
  - intros Hne. rewrite (Hsame _ Hne). reflexivity.
Qed.

Lemma stat_failure_is_local_witness :
  let h := Sample.quietHost in
  let h' := Sample.withStat h (fun p => if String.eqb p "/repo/gone.ts"
                                        then Throw "ENOENT" else fs_stat h p) in
  let l := [mkFileStatus "kept.ts" unstaged 0; mkFileStatus "gone.ts" deleted 0;
            mkFileStatus "/etc/abs" modified 0] in
  exists out out',
    enrich h "/repo" l = Ret out
    /\ enrich h' "/repo" l = Ret out'
    /\ length out' = length l
    /\ forall i f, l !! i = Some f ->
         (absPath h "/repo" f = "/repo/gone.ts" ->
            out' !! i = Some {| path := path f; status := status f; mtime := 0 |})
         /\ (absPath h "/repo" f <> "/repo/gone.ts" -> out' !! i = out !! i).
Proof.
  apply (stat_failure_is_local Sample.quietHost
           (Sample.withStat Sample.quietHost
              (fun p => if String.eqb p "/repo/gone.ts"
                        then Throw "ENOENT" else fs_stat Sample.quietHost p))
           "/repo"
           [mkFileStatus "kept.ts" unstaged 0; mkFileStatus "gone.ts" deleted 0;
            mkFileStatus "/etc/abs" modified 0]
           "/repo/gone.ts").
  - reflexivity.
  - reflexivity.
  - exists "ENOENT". reflexivity.
  - intros p Hp. cbn. destruct (String.eqb_spec p "/repo/gone.ts"); [contradiction|reflexivity].
Defined.

Example stat_failure_example :
  enrich (Sample.withStat Sample.quietHost
            (fun p => if String.eqb p "/repo/gone.ts"
                      then Throw "ENOENT" else Ret 1704067200000))
         "/repo"
         [mkFileStatus "kept.ts" unstaged 0; mkFileStatus "gone.ts" deleted 0]
  = Ret [mkFileStatus "kept.ts" unstaged 1704067200000; mkFileStatus "gone.ts" deleted 0].
Proof. vm_compute. reflexivity. Qed.

(** ** Content search *)
Section Search.

Lemma tryCatch_total {A} (body : Exc A) (fallback : A) :
  exists a, tryCatch body (fun _ => mret fallback) = Ret a.
Proof. destruct body; cbn; eauto. Qed.

Lemma searchFiles_total (h : Host) (q : string) (files : list FileStatus) :
  exists r, searchFiles h q files = Ret r.
Proof.
  unfold searchFiles.
  destruct (negb (truthy q) || negb (truthy (trim q)) || (length files =? 0)%nat);
    [eexists; reflexivity|].
  destruct (negb (truthy (removeAll shellMeta (trim q)))); [eexists; reflexivity|].
  apply tryCatch_total.
Qed.

Lemma truthy_nonempty (s : string) : truthy s = true <-> s <> "".
Proof. destruct s; cbn; split; congruence. Qed.

(** The result of [searchFiles] in terms of what [git grep] printed. *)
Lemma searchFiles_cases (h : Host) (q : string) (files : list FileStatus) :
  searchFiles h q files = Ret []
  \/ exists out,
       let term := removeAll shellMeta (trim q) in
       term <> ""
       /\ git_raw h (grepArgs term files) = Ret out
       /\ searchFiles h q files
          = Ret (filter (fun f => path f ∈ matchedPathsOf out) files).
Proof.
  unfold searchFiles.
  destruct (negb (truthy q) || negb (truthy (trim q)) || (length files =? 0)%nat);
    [left; reflexivity|].
  destruct (truthy (removeAll shellMeta (trim q))) eqn:Et; cbn [negb];
    [|left; reflexivity].
  destruct (simpleGit h) as [u|e]; cbn; [|left; reflexivity].
  rewrite getRepoRoot_repoRoot. cbn.
  assert (Hargs : grepArgs (removeAll shellMeta (trim q)) files
                  = "grep" :: "-i" :: "-l" :: "-F" :: "--"
                    :: removeAll shellMeta (trim q) :: "--" :: map path files)
    by reflexivity.
  rewrite <- Hargs.
  destruct (git_raw h (grepArgs (removeAll shellMeta (trim q)) files)) as [out|e] eqn:Eraw;
    cbn; [|left; reflexivity].
  destruct (size (matchedPathsOf out) =? 0)%nat eqn:Es.
  - left. reflexivity.
  - right. exists out. cbn. split; [apply truthy_nonempty, Et|].
    split; reflexivity.
Qed.

(** [searchFiles] when its one call of [git grep] fails, or prints the
    path of none of the files. *)
Lemma searchFiles_no_match (h : Host) (q : string) (files : list FileStatus) :
  match git_raw h (grepArgs (removeAll shellMeta (trim q)) files) with
  | Ret out => forall f, f ∈ files -> path f ∉ matchedPathsOf out
  | Throw _ => True
  end ->
  searchFiles h q files = Ret [].
Proof.
  intros Hraw.
  destruct (searchFiles_cases h q files) as [E|(out & _ & Eraw & E)]; [exact E|].
  rewrite Eraw in Hraw. rewrite E. f_equal.
  clear E Eraw. induction files as [|f files IH]; [reflexivity|].
  rewrite filter_cons.
  destruct (decide (path f ∈ matchedPathsOf out)) as [Hin|_].
  - exfalso. apply (Hraw f); [left | exact Hin].
  - apply IH. intros g Hg. apply Hraw. right. exact Hg.
Qed.

End Search.

(** C8. A query that is empty or blank after trimming leaves the filter
    inactive: the view is the whole snapshot, and the search effect asks
    the collaborator nothing.  For any query [searchFiles] never throws,
    and it resolves with the empty list when the one [git grep] call it
    makes for the query and the files fails or prints the path of none of
    the files, whatever the collaborator answers to other calls; the
    search effect then stores that empty result without raising the error
    notification, and the view of the active search is empty. *)
Theorem search_filter_fallback :
  (forall s, truthy (trim (searchQuery s)) = false -> filteredFiles s = allFiles s)
  /\ (forall h render store,
        truthy (trim (searchQuery render)) = false ->
        doSearch h render store = setSearchResults None store)
  /\ (forall h q files, exists r, searchFiles h q files = Ret r)
  /\ (forall h q files,
        match git_raw h (grepArgs (removeAll shellMeta (trim q)) files) with
        | Ret out => forall f, f ∈ files -> path f ∉ matchedPathsOf out
        | Throw _ => True
        end ->
        searchFiles h q files = Ret [])
  /\ (forall h render store,
        searchActive render = true ->
        truthy (trim (searchQuery render)) = true ->
        match git_raw h (grepArgs (removeAll shellMeta (trim (searchQuery render)))
                                  (allFiles render)) with
        | Ret out => forall f, f ∈ allFiles render -> path f ∉ matchedPathsOf out
        | Throw _ => True
        end ->
        doSearch h render store = setSearchResults (Some []) store
        /\ errorNotification (doSearch h render store) = errorNotification store
        /\ (searchActive store = true ->
            searchQuery store = searchQuery render ->
            filteredFiles (doSearch h render store) = [])).
Proof.
  split; [|split; [|split; [|split]]].
  - intros s H. unfold filteredFiles. rewrite H, orb_true_r. reflexivity.
  - intros h render store H. unfold doSearch. rewrite H, orb_true_r. reflexivity.
  - apply searchFiles_total.
  - intros h q files Hraw. apply searchFiles_no_match, Hraw.
  - intros h render store Hact Hq Hraw.
    assert (E : doSearch h render store = setSearchResults (Some []) store).
    { unfold doSearch. rewrite Hact, Hq. cbn.
      rewrite (searchFiles_no_match h _ _ Hraw). reflexivity. }
    rewrite E. split; [reflexivity|]. split; [reflexivity|].
    intros Hs Hsq. unfold filteredFiles, setSearchResults.
    cbn [searchActive searchQuery searchResults allFiles].
    rewrite Hs, Hsq, Hq. reflexivity.
Qed.

(** A collaborator that finds "needle" in b.ts and "zzz" nowhere: the
    search for "zzz" is empty, and raises no error. *)
Example search_no_match_example :
  let h := Sample.withRaw Sample.quietHost
             (fun args => if decide (args = ["grep"; "-i"; "-l"; "-F"; "--"; "needle";
                                             "--"; "a.ts"; "b.ts"])
                          then Ret ("b.ts" +:+ Sample.LF)
                          else Throw "exit code 1") in
  let files := [mkFileStatus "a.ts" unstaged 5; mkFileStatus "b.ts" new 3] in
  let render := mkState files 0 "zzz" true None None in
  searchFiles h "needle" files = Ret [mkFileStatus "b.ts" new 3]
  /\ searchFiles h "zzz" files = Ret []
  /\ doSearch h render render = setSearchResults (Some []) render
  /\ filteredFiles (doSearch h render render) = [].
Proof. vm_compute. repeat split. Qed.

Example search_blank_query_example :
  filteredFiles (mkState [mkFileStatus "a.ts" unstaged 5] 0 "   " true (Some []) None)
  = [mkFileStatus "a.ts" unstaged 5].
Proof. reflexivity. Qed.

Example search_failure_example :
  searchFiles (Sample.withRaw Sample.quietHost (fun _ => Throw "exit code 1"))
              "needle" [mkFileStatus "a.ts" unstaged 5]
  = Ret [].
Proof. reflexivity. Qed.

Example search_match_example :
  searchFiles (Sample.withRaw Sample.quietHost
                 (fun _ => Ret ("b.ts" +:+ Sample.LF)))
              " needle " [mkFileStatus "a.ts" unstaged 5; mkFileStatus "b.ts" new 3]
  = Ret [mkFileStatus "b.ts" new 3].
Proof. vm_compute. reflexivity. Qed.

(** ** Commit history *)

(** C10. A falsy [limit] (0, [NaN], or none given) is passed on as no
    option at all: [getCommitHistory] with limit 0 queries and returns
    what it does without a limit, every commit the provider lists for an
    unbounded query; [maxCount] is passed exactly for a limit that is a
    number other than 0. *)
Theorem commit_history_zero_limit_unbounded :
  logOptions (Some (Int 0)) = logOptions None
  /\ logOptions None = {| maxCount := None |}
  /\ logOptions (Some NaN) = {| maxCount := None |}
  /\ (forall h, getCommitHistory h (Some (Int 0)) = getCommitHistory h None)
  /\ (forall h all,
        simpleGit h = Ret tt ->
        git_log h {| maxCount := None |} = Ret all ->
        getCommitHistory h (Some (Int 0)) = Ret (map toCommitInfo all)
        /\ (forall r, getCommitHistory h (Some (Int 0)) = Ret r -> length r = length all))
  /\ (forall limit n,
        maxCount (logOptions limit) = Some n <->
        limit = Some n /\ exists z, n = Int z /\ z <> 0).
Proof.
  split; [reflexivity|]. split; [reflexivity|]. split; [reflexivity|].
  split; [reflexivity|]. split.
  - intros h all Hgit Hlog.
    assert (E : getCommitHistory h (Some (Int 0)) = Ret (map toCommitInfo all)).
    { unfold getCommitHistory. rewrite Hgit. cbn. rewrite Hlog. reflexivity. }
    split; [exact E|]. intros r Hr. rewrite E in Hr. injection Hr as <-.
    apply length_map.
  - intros limit n. unfold logOptions. split.
    + destruct limit as [[|z]|]; cbn; try discriminate.
      destruct (Z.eqb_spec z 0); cbn; [discriminate|].
      intros [= <-]. eauto.
    + intros [-> [z [-> Hz]]]. cbn.
      destruct (Z.eqb_spec z 0); [contradiction | reflexivity].
Qed.

Example commit_history_zero_limit_example :
  let entry := mkLogEntry "abcdef1234567890" "msg" "me" "2024-01-01" in
  let h := Sample.withLog Sample.quietHost
             (fun o => match maxCount o with
                       | None => Ret [entry; entry; entry]
                       | Some _ => Ret []
                       end) in
  getCommitHistory h (Some (Int 0))
  = Ret [mkCommitInfo "abcdef1" "msg" "me" "2024-01-01";
         mkCommitInfo "abcdef1" "msg" "me" "2024-01-01";
         mkCommitInfo "abcdef1" "msg" "me" "2024-01-01"].
Proof. reflexivity. Qed.

(** ** Lines of a name-status report *)
Section NameStatus.

Lemma append_cons (c : ascii) (s t : string) : String c s +:+ t = String c (s +:+ t).
Proof. reflexivity. Qed.

Lemma append_empty_l (s : string) : "" +:+ s = s.
Proof. reflexivity. Qed.

Lemma append_empty_r (s : string) : s +:+ "" = s.
Proof.
  induction s as [|c s IH]; [reflexivity | rewrite append_cons, IH; reflexivity].
Qed.

Lemma trimStart_ws (w s : string) :
  allWhiteSpace w = true -> trimStart (w +:+ s) = trimStart s.
Proof.
  induction w as [|c w IH]; [reflexivity|].
  rewrite append_cons. cbn.
  intros H. apply andb_true_iff in H as [Hc Hw]. rewrite Hc. apply IH, Hw.
Qed.

Lemma trimStart_token (tok s : string) :
  isToken tok = true -> trimStart (tok +:+ s) = tok +:+ s.
Proof.
  destruct tok as [|c tok]; [discriminate|].
  rewrite append_cons. cbn.
  intros H. apply andb_true_iff in H as [Hc _].
  apply negb_true_iff in Hc. rewrite Hc. reflexivity.
Qed.

Lemma trimEnd_ws (w : string) : allWhiteSpace w = true -> trimEnd w = "".
Proof.
  induction w as [|c w IH]; cbn; [reflexivity|].
  intros H. apply andb_true_iff in H as [Hc Hw]. rewrite (IH Hw), Hc. reflexivity.
Qed.

Lemma trimEnd_cons_keep (c : ascii) (s : string) :
  trimEnd s <> "" -> trimEnd (String c s) = String c (trimEnd s).
Proof. cbn. destruct (trimEnd s); [congruence | reflexivity]. Qed.

Lemma trimEnd_cons_nonws (c : ascii) (s : string) :
  isWhiteSpace c = false -> trimEnd (String c s) = String c (trimEnd s).
Proof. intros H. cbn. rewrite H. destruct (trimEnd s); reflexivity. Qed.

Lemma trimEnd_nowhite (tok s : string) :
  noWhiteSpace tok = true -> trimEnd (tok +:+ s) = tok +:+ trimEnd s.
Proof.
  induction tok as [|c tok IH]; intros H; [reflexivity|].
  cbn [noWhiteSpace] in H. apply andb_true_iff in H as [Hc Htok].
  apply negb_true_iff in Hc.
  change (String c tok +:+ s) with (String c (tok +:+ s)).
  rewrite trimEnd_cons_nonws by assumption. rewrite (IH Htok). reflexivity.
Qed.

Lemma trimEnd_keep (w s : string) :
  trimEnd s <> "" -> trimEnd (w +:+ s) = w +:+ trimEnd s.
Proof.
  intros Hs. induction w as [|c w IH]; [reflexivity|].
  change (String c w +:+ s) with (String c (w +:+ s)).
  rewrite trimEnd_cons_keep; rewrite IH; [reflexivity|].
  destruct w; [assumption | rewrite append_cons; discriminate].
Qed.

Lemma token_append_nonempty (tok s : string) : isToken tok = true -> tok +:+ s <> "".
Proof. destruct tok; [discriminate | rewrite append_cons; discriminate]. Qed.

Lemma trimEnd_separated (rest : list (string * string)) (trail : string) :
  Forall (fun p => isSeparator (fst p) = true /\ isToken (snd p) = true) rest ->
  allWhiteSpace trail = true ->
  trimEnd (separated rest trail) = separated rest "".
Proof.
  intros Hrest Htrail. induction Hrest as [|[sep tok] rest [Hsep Htok] _ IH]; cbn.
  - apply trimEnd_ws, Htrail.
  - cbn in Hsep, Htok. apply andb_true_iff in Htok as [Hne Hnw].
    assert (E : trimEnd (tok +:+ separated rest trail) = tok +:+ separated rest "").
    { rewrite trimEnd_nowhite by assumption. rewrite IH. reflexivity. }
    rewrite trimEnd_keep; rewrite E; [reflexivity|].
    apply token_append_nonempty. unfold isToken. rewrite Hne, Hnw. reflexivity.
Qed.

(** [trim] removes exactly the leading and the trailing run. *)
Lemma trim_line (lead st trail : string) (rest : list (string * string)) :
  allWhiteSpace lead = true -> isToken st = true ->
  Forall (fun p => isSeparator (fst p) = true /\ isToken (snd p) = true) rest ->
  allWhiteSpace trail = true ->
  trim (lead +:+ st +:+ separated rest trail) = st +:+ separated rest "".
Proof.
  intros Hlead Hst Hrest Htrail. unfold trim.
  rewrite trimStart_ws, trimStart_token by assumption.
  apply andb_true_iff in Hst as [_ Hnw].
  rewrite trimEnd_nowhite by assumption.
  rewrite trimEnd_separated by assumption. reflexivity.
Qed.

Lemma splitWs_nowhite (b : bool) (tok s : string) (t : string) (ts : list string) :
  isToken tok = true -> splitWs false s = t :: ts ->
  splitWs b (tok +:+ s) = (tok +:+ t) :: ts.
Proof.
  intros Htok Hs. apply andb_true_iff in Htok as [Hne Hnw].
  revert b Hne. induction tok as [|c tok IH]; intros b Hne; [discriminate|].
  cbn [noWhiteSpace] in Hnw. apply andb_true_iff in Hnw as [Hc Hnw].
  apply negb_true_iff in Hc.
  change (String c tok +:+ s) with (String c (tok +:+ s)).
  cbn [splitWs]. rewrite Hc.
  destruct tok as [|d tok].
  - rewrite !append_empty_l, Hs. reflexivity.
  - rewrite (IH Hnw false eq_refl). reflexivity.
Qed.

Lemma splitWs_in_run (w s : string) :
  allWhiteSpace w = true -> splitWs true (w +:+ s) = splitWs true s.
Proof.
  induction w as [|c w IH]; intros H; [reflexivity|].
  cbn [allWhiteSpace] in H. apply andb_true_iff in H as [Hc Hw].
  change (String c w +:+ s) with (String c (w +:+ s)).
  cbn [splitWs]. rewrite Hc. apply IH, Hw.
Qed.

Lemma splitWs_separator (sep s : string) :
  isSeparator sep = true -> splitWs false (sep +:+ s) = "" :: splitWs true s.
Proof.
  intros H. apply andb_true_iff in H as [Hne Hw].
  destruct sep as [|c sep]; [discriminate|].
  cbn [allWhiteSpace] in Hw. apply andb_true_iff in Hw as [Hc Hw].
  change (String c sep +:+ s) with (String c (sep +:+ s)).
  cbn [splitWs]. rewrite Hc. f_equal. apply splitWs_in_run, Hw.
Qed.

Lemma splitWs_separated (rest : list (string * string)) :
  Forall (fun p => isSeparator (fst p) = true /\ isToken (snd p) = true) rest ->
  splitWs false (separated rest "") = "" :: map snd rest.
Proof.
  intros Hrest. induction Hrest as [|[sep tok] rest [Hsep Htok] _ IH]; [reflexivity|].
  cbn in Hsep, Htok. cbn [separated map snd].
  rewrite splitWs_separator by assumption.
  rewrite (splitWs_nowhite true tok _ "" (map snd rest) Htok IH).
  rewrite append_empty_r. reflexivity.
Qed.

(** The pieces [split(/\s+/)] finds in a trimmed line are its tokens. *)
Lemma splitWhitespace_line (st : string) (rest : list (string * string)) :
  isToken st = true ->
  Forall (fun p => isSeparator (fst p) = true /\ isToken (snd p) = true) rest ->
  splitWhitespace (st +:+ separated rest "") = st :: map snd rest.
Proof.
  intros Hst Hrest. unfold splitWhitespace.
  rewrite (splitWs_nowhite false st _ "" (map snd rest) Hst (splitWs_separated rest Hrest)).
  rewrite append_empty_r. reflexivity.
Qed.

Lemma join_tokens_truthy (tok : string) (toks : list string) :
  isToken tok = true -> truthy (join " " (tok :: toks)) = true.
Proof.
  intros H. apply andb_true_iff in H as [Hne _].
  destruct tok as [|c tok]; [discriminate|].
  unfold join. cbn. destruct toks; reflexivity.
Qed.

Lemma join_cons (sep x y : string) (l : list string) :
  join sep (x :: y :: l) = x +:+ sep +:+ join sep (y :: l).
Proof. reflexivity. Qed.

(** Tokens separated by single spaces are what [join(' ')] rebuilds. *)
Lemma join_single_spaces (tok : string) (rest : list (string * string)) :
  Forall (fun p => fst p = " ") rest ->
  join " " (tok :: map snd rest) = tok +:+ separated rest "".
Proof.
  intros H. revert tok. induction H as [|[sep t] rest Hsep _ IH]; intros tok.
  - cbn. symmetry. apply append_empty_r.
  - cbn in Hsep. subst sep. cbn [map snd separated].
    rewrite join_cons, IH. reflexivity.
Qed.

Lemma append_cancel_l (s a b : string) : s +:+ a = s +:+ b -> a = b.
Proof.
  induction s as [|c s IH]; [auto|].
  rewrite !append_cons. intros [= H]. apply IH, H.
Qed.

Lemma join_token_head (c : ascii) (tok : string) (toks : list string) :
  exists s, join " " (String c tok :: toks) = String c s.
Proof.
  destruct toks as [|t toks]; [exists tok; reflexivity|].
  rewrite join_cons, append_cons. eauto.
Qed.

(** Conversely, [join(' ')] rebuilds the text only when the tokens were
    separated by single spaces. *)
Lemma join_single_spaces_inv (rest : list (string * string)) :
  Forall (fun p => isSeparator (fst p) = true /\ isToken (snd p) = true) rest ->
  forall tok,
    join " " (tok :: map snd rest) = tok +:+ separated rest "" ->
    Forall (fun p => fst p = " ") rest.
Proof.
  intros Hrest. induction Hrest as [|[sep t] rest [Hsep Ht] _ IH]; intros tok E.
  - constructor.
  - cbn [fst snd] in Hsep, Ht. cbn [map snd separated] in E.
    rewrite join_cons in E. apply append_cancel_l in E.
    apply andb_true_iff in Hsep as [Hne Hws].
    destruct sep as [|c sep]; [discriminate|].
    cbn [allWhiteSpace] in Hws. apply andb_true_iff in Hws as [Hc Hws].
    apply andb_true_iff in Ht as [Htne Htnw].
    destruct t as [|d t]; [discriminate|].
    cbn [noWhiteSpace] in Htnw. apply andb_true_iff in Htnw as [Hd Htnw].
    apply negb_true_iff in Hd.
    destruct (join_token_head d t (map snd rest)) as [s Es].
    set (J := join " " (String d t :: map snd rest)) in *.
    rewrite !append_cons, !append_empty_l in E. injection E as Ec E.
    destruct sep as [|e sep].
    + rewrite append_empty_l in E. subst c.
      constructor; [reflexivity|]. apply (IH (String d t)). exact E.
    + exfalso. rewrite Es, append_cons in E. injection E as Ee _. subst e.
      cbn [allWhiteSpace] in Hws. rewrite Hd in Hws. discriminate.
Qed.

Lemma forLine_blank (files : list ChangedFile.t) (line : string) :
  allWhiteSpace line = true -> forLine files line = files.
Proof.
  intros H. unfold forLine, trim.
  rewrite <- (append_empty_r line), trimStart_ws by assumption. reflexivity.
Qed.

(** Every line is blank, or a status token followed by separated tokens
    between a leading and a trailing run of white space. *)
Lemma line_shape (line : string) :
  allWhiteSpace line = true
  \/ exists lead st rest trail,
       allWhiteSpace lead = true
       /\ isToken st = true
       /\ Forall (fun p => isSeparator (fst p) = true /\ isToken (snd p) = true) rest
       /\ allWhiteSpace trail = true
       /\ line = lead +:+ st +:+ separated rest trail.
Proof.
  induction line as [|c s IH]; [left; reflexivity|].
  destruct (isWhiteSpace c) eqn:Hc.
  - destruct IH as [Hs | (lead & st & rest & trail & Hl & Hst & Hrest & Htr & ->)].
    + left. cbn. rewrite Hc, Hs. reflexivity.
    + right. exists (String c lead), st, rest, trail.
      split; [cbn; rewrite Hc, Hl; reflexivity|]. auto.
  - right.
    destruct IH as [Hs | (lead & st & rest & trail & Hl & Hst & Hrest & Htr & ->)].
    + exists "", (String c ""), [], s.
      split; [reflexivity|]. split; [unfold isToken; cbn; rewrite Hc; reflexivity|].
      split; [constructor|]. split; [assumption | reflexivity].
    + destruct lead as [|d lead].
      * exists "", (String c st), rest, trail.
        split; [reflexivity|]. split; [|auto].
        apply andb_true_iff in Hst as [_ Hnw].
        unfold isToken. cbn. rewrite Hc, Hnw. reflexivity.
      * exists "", (String c ""), ((String d lead, st) :: rest), trail.
        split; [reflexivity|]. split; [unfold isToken; cbn; rewrite Hc; reflexivity|].
        split; [|split; [assumption | reflexivity]].
        constructor; [|assumption]. split; [|assumption].
        unfold isSeparator. cbn [fst truthy]. exact Hl.
Qed.

End NameStatus.

(** C9, as the code has it.  A line of the report is its status token
    followed by the remaining tokens: the record takes the first token as
    status and, as path, the remaining tokens joined by single spaces.
    White space inside the path survives as one space per run, so the
    path is the text that followed the status token exactly when that
    text separates its tokens by single spaces.  A line without a second
    token, and a line of white space only, add no record. *)
Theorem name_status_line_tokens (files : list ChangedFile.t) (lead st trail : string)
    (rest : list (string * string)) :
  allWhiteSpace lead = true ->
  isToken st = true ->
  Forall (fun p => isSeparator (fst p) = true /\ isToken (snd p) = true) rest ->
  allWhiteSpace trail = true ->
  forLine files (lead +:+ st +:+ separated rest trail)
  = match rest with
    | [] => files
    | (_, tok) :: rest' =>
        files ++ [ChangedFile.mk (join " " (tok :: map snd rest')) st]
    end
  /\ (forall sep tok rest',
        rest = (sep, tok) :: rest' ->
        (join " " (tok :: map snd rest') = tok +:+ separated rest' ""
         <-> Forall (fun p => fst p = " ") rest'))
  /\ forLine files (lead +:+ trail) = files.
Proof.
  intros Hlead Hst Hrest Htrail. split; [|split].
  - unfold forLine. rewrite trim_line by assumption.
    rewrite splitWhitespace_line by assumption.
    assert (Ht : truthy (st +:+ separated rest "") = true).
    { destruct st; [discriminate | reflexivity]. }
    rewrite Ht. destruct rest as [|[sep tok] rest']; [reflexivity|].
    cbn [map snd length Nat.leb nth skipn].
    apply Forall_cons in Hrest as [[_ Htok] _]. cbn in Htok.
    rewrite (join_tokens_truthy tok (map snd rest') Htok).
    apply andb_true_iff in Hst as [-> _]. reflexivity.
  - intros sep tok rest' -> . apply Forall_cons in Hrest as [_ Hrest']. split.
    + apply join_single_spaces_inv, Hrest'.
    + apply join_single_spaces.
  - apply forLine_blank.
    clear -Hlead Htrail. induction lead as [|c lead IH]; [assumption|].
    rewrite append_cons. cbn in *. apply andb_true_iff in Hlead as [-> Hl].
    apply IH, Hl.
Qed.

Lemma name_status_line_tokens_witness :
  let rest := [(Sample.TAB, "src/my"); (" ", "file.ts")] in
  forLine [] ("" +:+ "M" +:+ separated rest "")
  = [ChangedFile.mk (join " " ["src/my"; "file.ts"]) "M"]
  /\ (forall sep tok rest',
        rest = (sep, tok) :: rest' ->
        (join " " (tok :: map snd rest') = tok +:+ separated rest' ""
         <-> Forall (fun p => fst p = " ") rest'))
  /\ forLine [] ("" +:+ "") = [].
Proof.
  apply (name_status_line_tokens [] "" "M" ""
           [(Sample.TAB, "src/my"); (" ", "file.ts")]).
  - reflexivity.
  - reflexivity.
  - repeat constructor.
  - reflexivity.
Defined.

(** C9, as stated, fails: the path "my  file.ts", written with two
    spaces, comes out as "my file.ts". *)
Lemma name_status_path_not_preserved :
  let text := "my  file.ts" in
  getFilesInCommit
    (Sample.withShow Sample.quietHost
       (fun _ => Ret ("M" +:+ Sample.TAB +:+ text +:+ Sample.LF)))
    "abc1234"
  = Ret [ChangedFile.mk "my file.ts" "M"]
  /\ "my file.ts" <> text.
Proof. split; [vm_compute; reflexivity | discriminate]. Qed.

Example name_status_report_example :
  parseNameStatus ("A" +:+ Sample.TAB +:+ "src/new.ts" +:+ Sample.LF
                   +:+ Sample.LF
                   +:+ "M" +:+ Sample.LF
                   +:+ "R100" +:+ Sample.TAB +:+ "old.ts" +:+ Sample.TAB +:+ "new.ts")
  = [ChangedFile.mk "src/new.ts" "A"; ChangedFile.mk "old.ts new.ts" "R100"].
Proof. vm_compute. reflexivity. Qed.

(** ** The polling effect and [refresh] *)
Section Polling.

Lemma step_tick_inflight (c : Component) :
  inflight (step c Tick)
  = if searchActive (pollRender c) then inflight c else inflight c ++ [pollRender c].
Proof.
  unfold step, refresh_starts. destruct (searchActive (pollRender c)); reflexivity.
Qed.

(** Passes in flight, before and after an event: a start adds one, a
    resolution removes one, and nothing else changes their number. *)
Lemma step_inflight_length (c : Component) (e : Event) :
  (length (inflight (step c e)) + (if endsPass c e then 1 else 0)
   = length (inflight c) + (if startsPass c e then 1 else 0))%nat.
Proof.
  destruct e as [|k newFiles|render|index|q| |]; cbn [step startsPass endsPass].
  - destruct (refresh_starts (pollRender c) true); cbn [inflight];
      [rewrite length_app; cbn; lia | lia].
  - destruct (inflight c !! k) eqn:E; cbn [inflight].
    + rewrite bool_decide_eq_true_2 by eauto.
      rewrite length_delete by (rewrite E; eauto).
      apply lookup_lt_Some in E. lia.
    + rewrite bool_decide_eq_false_2 by (intros [? ?]; discriminate). lia.
  - destruct (refresh_starts render false); cbn [inflight];
      [rewrite length_app; cbn; lia | lia].
  - cbn. lia.
  - cbn. lia.
  - cbn. lia.
  - cbn. lia.
Qed.

Lemma startsPass_not_endsPass (c : Component) (e : Event) :
  startsPass c e = true -> endsPass c e = false.
Proof. destruct e; cbn; congruence. Qed.

Lemma step_inflight_bound (c : Component) (e : Event) :
  (startsPass c e = true -> inflight c = []) ->
  (length (inflight c) <= 1)%nat -> (length (inflight (step c e)) <= 1)%nat.
Proof.
  intros Hstart Hlen. pose proof (step_inflight_length c e) as H.
  destruct (startsPass c e).
  - rewrite (Hstart eq_refl) in H. cbn [length] in H.
    destruct (endsPass c e); lia.
  - destruct (endsPass c e); lia.
Qed.

Lemma maxInflight_head (c : Component) (events : list Event) :
  (length (inflight c) <= maxInflight c events)%nat.
Proof. destruct events; cbn [maxInflight]; lia. Qed.

Lemma maxInflight_timely (events : list Event) :
  forall c, (length (inflight c) <= 1)%nat -> timely c events ->
            (maxInflight c events <= 1)%nat.
Proof.
  induction events as [|e events IH]; intros c Hlen Htimely.
  - exact Hlen.
  - destruct Htimely as [Hstart Hrest]. cbn [maxInflight].
    apply Nat.max_lub; [exact Hlen|].
    apply IH; [apply step_inflight_bound; assumption | exact Hrest].
Qed.

Lemma timely_maxInflight (events : list Event) :
  forall c, (maxInflight c events <= 1)%nat -> timely c events.
Proof.
  induction events as [|e events IH]; intros c Hmax; [exact I|].
  cbn [maxInflight] in Hmax.
  assert (Hs : (maxInflight (step c e) events <= 1)%nat) by lia.
  split; [|apply IH, Hs].
  intros Hstart.
  pose proof (maxInflight_head (step c e) events) as Hh.
  pose proof (step_inflight_length c e) as H.
  rewrite Hstart, (startsPass_not_endsPass c e Hstart) in H.
  assert (H0 : length (inflight c) = 0%nat) by lia.
  destruct (inflight c); [reflexivity | discriminate].
Qed.

(** Over a run: the passes in flight at the end are those of the start
    and those started, less those resolved.  No start is dropped or put
    off. *)
Lemma run_inflight_count (events : list Event) :
  forall c,
    (length (inflight (run c events)) + countEvents endsPass c events
     = length (inflight c) + countEvents startsPass c events)%nat.
Proof.
  induction events as [|e events IH]; intros c; [cbn; lia|].
  change (run c (e :: events)) with (run (step c e) events).
  cbn [countEvents]. pose proof (IH (step c e)) as H1.
  pose proof (step_inflight_length c e) as H2. lia.
Qed.

Lemma startsPass_iff (c : Component) (e : Event) :
  startsPass c e = true
  <-> (e = Tick /\ searchActive (pollRender c) = false)
      \/ (exists render, e = OperationRefresh render).
Proof.
  destruct e as [|k newFiles|render|index|q| |]; cbn [startsPass];
    unfold refresh_starts; cbn [andb negb].
  - rewrite negb_true_iff. split; [auto | intros [[_ H]|[? [=]]]; exact H].
  - split; [discriminate | intros [[[=] _]|[? [=]]]].
  - split; [eauto | reflexivity].
  - split; [discriminate | intros [[[=] _]|[? [=]]]].
  - split; [discriminate | intros [[[=] _]|[? [=]]]].
  - split; [discriminate | intros [[[=] _]|[? [=]]]].
  - split; [discriminate | intros [[[=] _]|[? [=]]]].
Qed.

(** Ticks that no resolution follows pile up passes without bound. *)
Lemma run_ticks_inflight (n : nat) :
  forall c, searchActive (pollRender c) = false ->
            length (inflight (run c (replicate n Tick))) = (length (inflight c) + n)%nat.
Proof.
  induction n as [|n IH]; intros c Hc; [cbn; lia|].
  change (run c (replicate (S n) Tick)) with (run (step c Tick) (replicate n Tick)).
  assert (E : step c Tick
              = {| store := store c; pollRender := pollRender c;
                   inflight := inflight c ++ [pollRender c] |}).
  { unfold step, refresh_starts. rewrite Hc. reflexivity. }
  rewrite E, IH by exact Hc. cbn [inflight]. rewrite length_app. cbn. lia.
Qed.

(** When [refresh] runs in the render that is current, its clamp is the
    one of the specification. *)
Lemma refresh_resume_current (render store : State) (newFiles : list FileStatus) :
  selectedIndex render = selectedIndex store ->
  selectedIndex (refresh_resume render newFiles store)
  = if selectedIndex store >=? Z.of_nat (length newFiles)
    then Z.max 0 (Z.of_nat (length newFiles) - 1)
    else selectedIndex store.
Proof.
  intros H. unfold refresh_resume. rewrite H.
  destruct (selectedIndex store >=? Z.of_nat (length newFiles)); reflexivity.
Qed.

Lemma refresh_resume_allFiles (render store : State) (newFiles : list FileStatus) :
  allFiles (refresh_resume render newFiles store) = newFiles.
Proof.
  unfold refresh_resume.
  destruct (selectedIndex render >=? Z.of_nat (length newFiles)); reflexivity.
Qed.

End Polling.

(** C4, as the code has it.  A pass is started by every tick of the
    interval whose [refresh] sees [searchActive] false, and by every
    [refresh] that the key handler awaits after a confirmed revert or
    deletion, whether or not an earlier pass is still unresolved; a tick
    that sees [searchActive] true starts nothing.  Over a run no start is
    dropped or put off: the passes in flight at the end are those of the
    beginning and those started, less those resolved.  Starting with at
    most one pass in flight, passes do not overlap in exactly the runs in
    which every event that starts a pass finds no pass in flight; and
    ticks that no resolution follows put any number of passes in
    flight. *)
Theorem polling_serial_iff_timely (c : Component) (events : list Event) :
  (length (inflight c) <= 1)%nat ->
  ((maxInflight c events <= 1)%nat <-> timely c events)
  /\ (length (inflight (run c events)) + countEvents endsPass c events
      = length (inflight c) + countEvents startsPass c events)%nat
  /\ (forall c' e,
        startsPass c' e = true
        <-> (e = Tick /\ searchActive (pollRender c') = false)
            \/ (exists render, e = OperationRefresh render))
  /\ (forall n, length (inflight (run mounted (replicate n Tick))) = S n).
Proof.
  intros Hlen. split; [|split; [|split]].
  - split; [apply timely_maxInflight | apply maxInflight_timely, Hlen].
  - apply run_inflight_count.
  - apply startsPass_iff.
  - intros n. rewrite run_ticks_inflight by reflexivity. reflexivity.
Qed.

Lemma polling_serial_iff_timely_witness :
  let files := [mkFileStatus "a.ts" unstaged 7] in
  let events := [Resolved 0 files; Tick; Resolved 0 files;
                 OperationRefresh (setAllFiles files initialState); Resolved 0 [];
                 TypeQuery "needle"; SubmitSearch; Tick; Tick] in
  ((maxInflight mounted events <= 1)%nat <-> timely mounted events)
  /\ (length (inflight (run mounted events)) + countEvents endsPass mounted events
      = length (inflight mounted) + countEvents startsPass mounted events)%nat
  /\ (forall c' e,
        startsPass c' e = true
        <-> (e = Tick /\ searchActive (pollRender c') = false)
            \/ (exists render, e = OperationRefresh render))
  /\ (forall n, length (inflight (run mounted (replicate n Tick))) = S n).
Proof.
  apply (polling_serial_iff_timely mounted
           [Resolved 0 [mkFileStatus "a.ts" unstaged 7]; Tick;
            Resolved 0 [mkFileStatus "a.ts" unstaged 7];
            OperationRefresh (setAllFiles [mkFileStatus "a.ts" unstaged 7] initialState);
            Resolved 0 [];
            TypeQuery "needle"; SubmitSearch; Tick; Tick]).
  apply le_n.
Defined.

Example polling_timely_run :
  let files := [mkFileStatus "a.ts" unstaged 7] in
  let events := [Resolved 0 files; Tick; Resolved 0 files;
                 OperationRefresh (setAllFiles files initialState); Resolved 0 [];
                 TypeQuery "needle"; SubmitSearch; Tick; Tick] in
  timely mounted events /\ maxInflight mounted events = 1%nat
  /\ countEvents startsPass mounted events = 2%nat
  /\ countEvents endsPass mounted events = 3%nat.
Proof.
  split; [|repeat split].
  repeat split; intros; try discriminate; vm_compute; reflexivity.
Qed.

(** Timely ticks are not enough: the [refresh] the key handler awaits
    after a revert starts a pass while the pass of a tick is in flight,
    also during a search, when ticks start nothing. *)
Example polling_handler_refresh_overlaps :
  let files := [mkFileStatus "a.ts" unstaged 7] in
  let render := setAllFiles files initialState in
  let searching := setSearchActive true (setSearchQuery "needle" render) in
  maxInflight mounted [Resolved 0 files; Tick; OperationRefresh render] = 2%nat
  /\ maxInflight mounted [Resolved 0 files; TypeQuery "needle"; SubmitSearch; Tick;
                          OperationRefresh searching; OperationRefresh searching]
     = 2%nat.
Proof. split; reflexivity. Qed.

(** C4, as stated, fails: when the pass started by a tick has not
    resolved by the next tick, that tick starts a second pass; two passes
    are then in flight. *)
Lemma polling_passes_overlap :
  let events := [Resolved 0 []; Tick; Tick] in
  length (inflight (run mounted events)) = 2%nat
  /\ maxInflight mounted events = 2%nat.
Proof. split; reflexivity. Qed.

(** C7 at the failing input.  Six files are listed and the sixth is
    selected; the repository shrinks to two files; the pass of the next
    tick runs the [refresh] of the render that registered the interval,
    whose [selectedIndex] is still 0: the selection stays at 5, beyond the
    two records of the new snapshot. *)
Theorem refresh_clamp_reads_stale_selection :
  let six := [mkFileStatus "a" unstaged 6; mkFileStatus "b" unstaged 5;
              mkFileStatus "c" unstaged 4; mkFileStatus "d" unstaged 3;
              mkFileStatus "e" unstaged 2; mkFileStatus "f" unstaged 1] in
  let two := [mkFileStatus "a" unstaged 6; mkFileStatus "b" unstaged 5] in
  let c := run mounted [Resolved 0 six; Select 5; Tick; Resolved 0 two] in
  allFiles (store c) = two
  /\ selectedIndex (store c) = 5
  /\ selectedIndex (store c) <> Z.max 0 (Z.of_nat (length two) - 1)
  /\ filteredFiles (store c) !! 5%nat = None.
Proof.
  split; [reflexivity|]. split; [reflexivity|].
  split; [vm_compute; discriminate | reflexivity].
Qed.

(** ** The unit tests of the repository, evaluated on the model *)

(** [tests/unit/git.test.ts]: should deduplicate files by path with
    priority ordering. *)
Example test_deduplicate_by_path :
  getChangedFiles
    (Sample.withStatus Sample.quietHost
       (Ret (Sample.report [Sample.entry "duplicate.ts" "A" "M";
                            Sample.entry "newfile.ts" "?" "?"] [])))
  = Ret [mkFileStatus "duplicate.ts" modified 1704067200000;
         mkFileStatus "newfile.ts" new 1704067200000].
Proof. vm_compute. reflexivity. Qed.

(** should prioritize renamed over other statuses for same file. *)
Example test_renamed_first :
  getChangedFiles
    (Sample.withStatus Sample.quietHost
       (Ret (Sample.report [Sample.entry "renamed.ts" "A" "M"]
                           [mkRename "old.ts" "renamed.ts"])))
  = Ret [mkFileStatus "renamed.ts" renamed 1704067200000].
Proof. vm_compute. reflexivity. Qed.

(** should sort files by modification time then filename. *)
Example test_sort_by_mtime :
  getChangedFiles
    (Sample.withStat
       (Sample.withStatus Sample.quietHost
          (Ret (Sample.report [Sample.entry "older.txt" " " "M";
                               Sample.entry "newer.txt" " " "M"] [])))
       (fun p => if includes p "newer" then Ret 1704153600000 else Ret 1704067200000))
  = Ret [mkFileStatus "newer.txt" unstaged 1704153600000;
         mkFileStatus "older.txt" unstaged 1704067200000].
Proof. vm_compute. reflexivity. Qed.

(** should return sorted file list with all status types. *)
Example test_all_status_types :
  (fun r => match r with
            | Ret out => map status out
            | Throw _ => []
            end)
    (getChangedFiles
       (Sample.withStatus Sample.quietHost
          (Ret (Sample.report [Sample.entry "file1.ts" " " "M";
                               Sample.entry "file2.ts" " " "M";
                               Sample.entry "file3.ts" "A" " ";
                               Sample.entry "file4.ts" "?" "?";
                               Sample.entry "file5.ts" " " "D";
                               Sample.entry "new.ts" "R" " "]
                              [mkRename "old.ts" "new.ts"]))))
  = [unstaged; unstaged; modified; new; deleted; renamed].
Proof. vm_compute. reflexivity. Qed.

(** should handle git errors gracefully. *)
Example test_git_error :
  getChangedFiles (Sample.withStatus Sample.quietHost (Throw "Git error")) = Ret [].
Proof. reflexivity. Qed.

(** The tests of the App component: should adjust selected index when files
    change (the selection and the [refresh] are of the same render). *)
Example test_adjust_selected_index :
  let files := [mkFileStatus "a" unstaged 2; mkFileStatus "b" unstaged 1] in
  let current := setSelectedIndex 5 initialState in
  selectedIndex (refresh_resume current files current) = 1.
Proof. reflexivity. Qed.

(* ===================================================================== *)
(** * Part III: further properties of the code *)
(* ===================================================================== *)

(** ** More about [trim] *)
Section Trim.

Lemma trimStart_allWhiteSpace (w : string) :
  allWhiteSpace w = true -> trimStart w = "".
Proof.
  induction w as [|c w IH]; [reflexivity|]. cbn.
  intros H. apply andb_true_iff in H as [-> Hw]. apply IH, Hw.
Qed.

Lemma trimEnd_append_ws (x trail : string) :
  allWhiteSpace trail = true -> trimEnd (x +:+ trail) = trimEnd x.
Proof.
  intros Ht. induction x as [|c x IH].
  - rewrite append_empty_l. apply trimEnd_ws, Ht.
  - rewrite append_cons. cbn [trimEnd]. rewrite IH. reflexivity.
Qed.

Lemma trimEnd_idempotent (s : string) : trimEnd (trimEnd s) = trimEnd s.
Proof.
  induction s as [|c s IH]; [reflexivity|]. cbn [trimEnd].
  destruct (trimEnd s) as [|d t] eqn:E.
  - destruct (isWhiteSpace c) eqn:Hc; [reflexivity|]. cbn. rewrite Hc. reflexivity.
  - cbn [trimEnd] in *. rewrite IH. reflexivity.
Qed.

(** A string that does not begin with white space. *)
Lemma trim_head (s : string) :
  trim s = "" \/ exists c t, trim s = String c t /\ isWhiteSpace c = false.
Proof.
  unfold trim. induction s as [|c s IH]; [left; reflexivity|].
  cbn [trimStart]. destruct (isWhiteSpace c) eqn:Hc; [exact IH|].
  right. rewrite trimEnd_cons_nonws by assumption. eauto.
Qed.

Lemma trimStart_trim (s : string) : trimStart (trim s) = trim s.
Proof.
  destruct (trim_head s) as [->|(c & t & -> & Hc)]; [reflexivity|].
  cbn. rewrite Hc. reflexivity.
Qed.

(** [trim] removes a surrounding of white space, and nothing from a
    string that is already trimmed. *)
Lemma trim_surrounded (lead s trail : string) :
  allWhiteSpace lead = true -> allWhiteSpace trail = true ->
  trim (lead +:+ trim s +:+ trail) = trim s.
Proof.
  intros Hl Ht. unfold trim at 1. rewrite trimStart_ws by assumption.
  destruct (trim_head s) as [E|(c & t & E & Hc)]; rewrite E.
  - rewrite append_empty_l, trimStart_allWhiteSpace by assumption. reflexivity.
  - rewrite append_cons. cbn [trimStart]. rewrite Hc.
    rewrite <- append_cons, <- E, trimEnd_append_ws by assumption.
    unfold trim. apply trimEnd_idempotent.
Qed.

Lemma trim_idempotent (s : string) : trim (trim s) = trim s.
Proof.
  rewrite <- (append_empty_r (trim s)) at 1.
  apply (trim_surrounded "" s ""); reflexivity.
Qed.

End Trim.

(** X1. [getRepoRoot] never throws.  When the git client or the query
    fails it gives the working directory; when git prints the top level
    surrounded by white space (it ends the line), it gives the top level
    without that white space. *)
Theorem getRepoRoot_never_throws_trimmed :
  forall h, exists root,
    getRepoRoot h = Ret root
    /\ (forall e, simpleGit h = Throw e -> root = cwd h)
    /\ (forall e, git_revparse h ["--show-toplevel"] = Throw e -> root = cwd h)
    /\ (forall lead top trail,
          simpleGit h = Ret tt ->
          git_revparse h ["--show-toplevel"] = Ret (lead +:+ trim top +:+ trail) ->
          allWhiteSpace lead = true -> allWhiteSpace trail = true ->
          root = trim top).
Proof.
  intros h. exists (repoRoot h). split; [apply getRepoRoot_repoRoot|].
  unfold repoRoot, getRepoRoot. repeat split.
  - intros e ->. reflexivity.
  - intros e ->. destruct (simpleGit h); reflexivity.
  - intros lead top trail -> -> Hl Ht. cbn. apply trim_surrounded; assumption.
Qed.

Example getRepoRoot_example :
  getRepoRoot Sample.quietHost = Ret "/repo".
Proof. reflexivity. Qed.

Import GitFs SpecMore.

(** ** More about [searchFiles] *)
Section SearchMore.

Lemma removeAll_free (cls : ascii -> bool) (s : string) :
  allUnits (fun c => negb (cls c)) (removeAll cls s) = true.
Proof.
  induction s as [|c s IH]; [reflexivity|]. cbn [removeAll].
  destruct (cls c) eqn:E; [exact IH|]. cbn. rewrite E, IH. reflexivity.
Qed.

End SearchMore.

(** X2. Whatever the query and the collaborator, [searchFiles] resolves
    with a subsequence of the files it was given, in their order.  A
    result that is not empty was obtained from one [git grep -i -l -F]
    call, restricted to the paths of those files, for a term that is not
    empty and holds none of the characters [\`$();|&<>{}[]]; it is made
    of exactly the files whose path is a line of the output. *)
Theorem searchFiles_subsequence :
  forall h q files, exists r,
    searchFiles h q files = Ret r
    /\ sublist r files
    /\ (r = []
        \/ exists term out,
             term <> ""
             /\ allUnits (fun c => negb (shellMeta c)) term = true
             /\ git_raw h (grepArgs term files) = Ret out
             /\ r = filter (fun f => path f ∈ matchedPathsOf out) files).
Proof.
  intros h q files.
  destruct (searchFiles_cases h q files) as [E|(out & Hne & Hraw & E)].
  - exists []. split; [exact E|]. split; [apply sublist_nil_l | left; reflexivity].
  - eexists. split; [exact E|]. split; [apply sublist_filter|].
    right. exists (removeAll shellMeta (trim q)), out.
    split; [exact Hne|]. split; [apply removeAll_free|]. split; [exact Hraw | reflexivity].
Qed.

Example searchFiles_sanitized_example :
  searchFiles
    (Sample.withRaw Sample.quietHost
       (fun args => if decide (args = ["grep"; "-i"; "-l"; "-F"; "--"; "rm -rf x"; "--";
                                       "a.ts"; "b.ts"])
                    then Ret ("b.ts" +:+ Sample.LF +:+ "zzz" +:+ Sample.LF)
                    else Throw "unexpected"))
    "  $(rm -rf x);  "
    [mkFileStatus "a.ts" unstaged 5; mkFileStatus "b.ts" new 3]
  = Ret [mkFileStatus "b.ts" new 3].
Proof. vm_compute. reflexivity. Qed.

(** ** More about the commit history *)
Section HistoryMore.

Lemma substring0_length (n : nat) (s : string) :
  String.length (substring 0 n s) = Nat.min n (String.length s).
Proof.
  revert s. induction n as [|n IH]; intros [|c s]; cbn; try reflexivity.
  rewrite IH. reflexivity.
Qed.

Lemma substring0_prefix (n : nat) (s : string) :
  String.prefix (substring 0 n s) s = true.
Proof.
  revert s. induction n as [|n IH]; intros [|c s]; cbn; try reflexivity.
  destruct (ascii_dec c c); [apply IH | contradiction].
Qed.

Lemma getCommitHistory_cases (h : Host) (limit : option number) :
  getCommitHistory h limit =
  match simpleGit h, git_log h (logOptions limit) with
  | Ret _, Ret log => Ret (map toCommitInfo log)
  | _, _ => Ret []
  end.
Proof.
  unfold getCommitHistory. destruct (simpleGit h); [|reflexivity]. cbn.
  destruct (git_log h (logOptions limit)); reflexivity.
Qed.

End HistoryMore.

(** X3. [getCommitHistory] never throws: a failure of the client or of
    the log gives the empty list.  Otherwise it gives one record per log
    entry, in the order of the log; the record's hash is the beginning of
    the entry's hash, cut after 7 code units, and message, author and
    date are the entry's. *)
Theorem getCommitHistory_records :
  forall h limit, exists r,
    getCommitHistory h limit = Ret r
    /\ (forall e, simpleGit h = Throw e -> r = [])
    /\ (forall e, git_log h (logOptions limit) = Throw e -> r = [])
    /\ (forall log,
          simpleGit h = Ret tt -> git_log h (logOptions limit) = Ret log ->
          length r = length log
          /\ forall i entry, log !! i = Some entry ->
               exists c,
                 r !! i = Some c
                 /\ String.prefix (hash c) (log_hash entry) = true
                 /\ String.length (hash c) = Nat.min 7 (String.length (log_hash entry))
                 /\ message c = log_message entry
                 /\ author c = log_author_name entry
                 /\ date c = log_date entry).
Proof.
  intros h limit. rewrite getCommitHistory_cases.
  destruct (simpleGit h) as [[]|e1] eqn:Eg.
  - destruct (git_log h (logOptions limit)) as [log|e2] eqn:El.
    + exists (map toCommitInfo log). split; [reflexivity|].
      split; [discriminate|]. split; [discriminate|].
      intros log' _ [= <-]. split; [apply length_map|].
      intros i entry Hi. exists (toCommitInfo entry).
      split; [rewrite list_lookup_fmap, Hi; reflexivity|].
      cbn. split; [apply substring0_prefix|]. split; [apply substring0_length|]. auto.
    + exists []. split; [reflexivity|]. split; [reflexivity|].
      split; [reflexivity | discriminate].
  - exists []. split; [reflexivity|]. split; [reflexivity|].
    split; [reflexivity | discriminate].
Qed.

Example getCommitHistory_short_hash_example :
  getCommitHistory
    (Sample.withLog Sample.quietHost
       (fun _ => Ret [mkLogEntry "abcdef1234567890" "first" "me" "2024-01-01";
                      mkLogEntry "abc" "second" "you" "2024-01-02"]))
    None
  = Ret [mkCommitInfo "abcdef1" "first" "me" "2024-01-01";
         mkCommitInfo "abc" "second" "you" "2024-01-02"].
Proof. reflexivity. Qed.

(** ** More about [getFilesInCommit] *)
Section NameStatusMore.

Lemma isToken_truthy (s : string) : isToken s = true -> truthy s = true.
Proof. intros H. apply andb_true_iff in H as [H _]. exact H. Qed.

(** What one line adds: nothing, or one record made of its tokens. *)
Lemma forLine_adds (files : list ChangedFile.t) (line : string) :
  forLine files line = files
  \/ exists st tok toks,
       isToken st = true /\ isToken tok = true
       /\ Forall (fun t => isToken t = true) toks
       /\ forLine files line
          = files ++ [ChangedFile.mk (join " " (tok :: toks)) st].
Proof.
  destruct (line_shape line)
    as [Hb | (lead & st & rest & trail & Hl & Hst & Hrest & Htr & ->)].
  - left. apply forLine_blank, Hb.
  - unfold forLine. rewrite trim_line by assumption.
    rewrite splitWhitespace_line by assumption.
    assert (Ht : truthy (st +:+ separated rest "") = true).
    { destruct st; [discriminate | reflexivity]. }
    rewrite Ht. destruct rest as [|[sep tok] rest']; [left; reflexivity|].
    right. exists st, tok, (map snd rest').
    apply Forall_cons in Hrest as [[_ Htok] Hrest']. cbn in Htok.
    split; [assumption|]. split; [assumption|]. split.
    + apply Forall_fmap. eapply Forall_impl; [exact Hrest'|].
      intros [s t] [_ H]. exact H.
    + cbn [map snd length Nat.leb nth skipn].
      rewrite (join_tokens_truthy tok (map snd rest') Htok).
      rewrite (isToken_truthy st Hst). reflexivity.
Qed.

Lemma fold_forLine_records (lines : list string) :
  forall files,
    Forall (fun f => isToken (ChangedFile.status f) = true
                     /\ singleSpaced (ChangedFile.path f)) files ->
    Forall (fun f => isToken (ChangedFile.status f) = true
                     /\ singleSpaced (ChangedFile.path f))
           (fold_left forLine lines files)
    /\ (length (fold_left forLine lines files) <= length files + length lines)%nat.
Proof.
  induction lines as [|line lines IH]; intros files Hf; [split; [exact Hf | cbn; lia]|].
  cbn [fold_left].
  destruct (forLine_adds files line) as [E|(st & tok & toks & Hst & Htok & Htoks & E)];
    rewrite E.
  - destruct (IH files Hf) as [H1 H2]. split; [exact H1 | cbn; lia].
  - destruct (IH (files ++ [ChangedFile.mk (join " " (tok :: toks)) st])) as [H1 H2].
    { apply Forall_app. split; [exact Hf|]. constructor; [|constructor].
      cbn. split; [exact Hst|]. exists tok, toks. auto. }
    split; [exact H1|]. rewrite length_app in H2. cbn in *. lia.
Qed.

End NameStatusMore.

(** X4. [getFilesInCommit] never throws: when the client or [git show]
    fails the list is empty.  Every record it gives has, as status, a
    token of the report (not empty, free of white space) and, as path, at
    least one such token, several being joined by single spaces; there is
    at most one record per line of the report. *)
Theorem getFilesInCommit_records :
  forall h commitHash, exists r,
    getFilesInCommit h commitHash = Ret r
    /\ Forall (fun f => isToken (ChangedFile.status f) = true
                        /\ singleSpaced (ChangedFile.path f)) r
    /\ (forall e, simpleGit h = Throw e -> r = [])
    /\ (forall e, git_show h ["--name-status"; "--format="; commitHash] = Throw e ->
                  r = [])
    /\ (forall out, git_show h ["--name-status"; "--format="; commitHash] = Ret out ->
                    (length r <= length (split "010" out))%nat).
Proof.
  intros h commitHash. unfold getFilesInCommit.
  destruct (simpleGit h) as [u|e1]; cbn.
  - destruct (git_show h ["--name-status"; "--format="; commitHash]) as [out|e2]; cbn.
    + exists (parseNameStatus out). split; [reflexivity|].
      unfold parseNameStatus.
      destruct (fold_forLine_records
                  (filter (fun line => trim line ≠ "") (split "010" out)) [])
        as [H1 H2]; [constructor|].
      split; [exact H1|]. split; [discriminate|]. split; [discriminate|].
      intros out' [= <-]. cbn in H2.
      pose proof (length_filter (fun line => trim line ≠ "") (split "010" out)). lia.
    + exists []. split; [reflexivity|]. split; [constructor|].
      split; [reflexivity|]. split; [reflexivity | discriminate].
  - exists []. split; [reflexivity|]. split; [constructor|].
    split; [reflexivity|]. split; [reflexivity | cbn; intros; lia].
Qed.

(** ** File deletion *)

(** X5. [deleteFileSafely] answers [true] only for a file that could be
    accessed before the call and cannot be accessed when the call ends.
    For a file that cannot be accessed it answers [false] and touches
    nothing.  It unlinks only after the trash has thrown: when the trash
    returns normally the file system is left as the trash (and the wait)
    left it, also when the file is still there and the answer is
    [false]. *)
Theorem deleteFileSafely_verified :
  forall (W : Type) (d : Disk W) (filePath : string) (w : W),
    let p := resolve d filePath in
    let w' := fst (deleteFileSafely d filePath w) in
    let answer := snd (deleteFileSafely d filePath w) in
    (answer = true ->
       (exists u, access d p w = Ret u) /\ (exists e, access d p w' = Throw e))
    /\ (forall e, access d p w = Throw e -> w' = w /\ answer = false)
    /\ (forall u w1 u1, access d p w = Ret u -> trash d [p] w = (w1, Ret u1) ->
          w' = wait d w1 /\ answer = verifyDeleted d p (wait d w1))
    /\ (forall u w1 e1 w2 e2,
          access d p w = Ret u -> trash d [p] w = (w1, Throw e1) ->
          unlink d p w1 = (w2, Throw e2) -> w' = w2 /\ answer = false).
Proof.
  intros W d filePath w. cbn zeta. unfold deleteFileSafely.
  destruct (access d (resolve d filePath) w) as [u|e] eqn:Ea.
  - destruct (trash d [resolve d filePath] w) as [w1 [u1|e1]] eqn:Et.
    + cbn. split; [|split; [|split]].
      * intros H. split; [eauto|]. unfold verifyDeleted in H.
        destruct (access d _ (wait d w1)); [discriminate | eauto].
      * discriminate.
      * intros u' w1' u1' _ [= <- _]. split; reflexivity.
      * intros u' w1' e1' w2 e2 _ [=].
    + destruct (unlink d (resolve d filePath) w1) as [w2 [u2|e2]] eqn:Eu.
      * cbn. split; [|split; [|split]].
        -- intros H. split; [eauto|]. unfold verifyDeleted in H.
           destruct (access d _ (wait d w2)); [discriminate | eauto].
        -- discriminate.
        -- intros u' w1' u1' _ [=].
        -- intros u' w1' e1' w2' e2' _ [= <- _]. rewrite Eu. intros [=].
      * cbn. split; [discriminate|]. split; [discriminate|]. split.
        -- intros u' w1' u1' _ [=].
        -- intros u' w1' e1' w2' e2' _ [= <- _]. rewrite Eu. intros [= <- _].
           split; reflexivity.
  - cbn. split; [discriminate|]. split; [intros; split; reflexivity|].
    split; discriminate.
Qed.

Example deleteFileSafely_example :
  deleteFileSafely setDisk "a.ts" {["/repo/a.ts"; "/repo/b.ts"]}
  = ({["/repo/b.ts"]}, true)
  /\ deleteFileSafely setDisk "c.ts" {["/repo/a.ts"; "/repo/b.ts"]}
     = ({["/repo/a.ts"; "/repo/b.ts"]}, false).
Proof. split; vm_compute; reflexivity. Qed.

(** ** Fallback values *)

(** X6. The queries [getCurrentBranch], [getBranchCount],
    [isGitRepository] and [getRawDiff] never throw: each gives what git
    answered, and its fallback (["unknown"], 0, [false], the empty string)
    when the client or the git command fails. *)
Theorem git_queries_fall_back :
  forall h t filePath,
    (exists b, getCurrentBranch h = Ret b
       /\ (forall u raw, simpleGit h = Ret u ->
             git_revparse h ["--abbrev-ref"; "HEAD"] = Ret raw -> b = raw)
       /\ ((forall u, simpleGit h <> Ret u)
           \/ (forall raw, git_revparse h ["--abbrev-ref"; "HEAD"] <> Ret raw) ->
           b = "unknown"))
    /\ (exists n, getBranchCount h t = Ret n
          /\ (forall u all, simpleGit h = Ret u -> git_branch t ["-a"] = Ret all ->
                n = length all)
          /\ ((forall u, simpleGit h <> Ret u)
              \/ (forall all, git_branch t ["-a"] <> Ret all) -> n = 0%nat))
    /\ (exists r, isGitRepository h = Ret r
          /\ (r = true <->
              (exists u, simpleGit h = Ret u)
              /\ exists dir, git_revparse h ["--git-dir"] = Ret dir))
    /\ (exists diff, getRawDiff h t filePath = Ret diff
          /\ (forall u raw, simpleGit h = Ret u ->
                git_diff t ["HEAD"; "-U3"; "--"; filePath] = Ret raw -> diff = raw)
          /\ ((forall u, simpleGit h <> Ret u)
              \/ (forall raw, git_diff t ["HEAD"; "-U3"; "--"; filePath] <> Ret raw) ->
              diff = "")).
Proof.
  intros h t filePath.
  unfold getCurrentBranch, getBranchCount, isGitRepository, getRawDiff.
  destruct (simpleGit h) as [u|e]; cbn.
  - split; [|split; [|split]].
    + destruct (git_revparse h ["--abbrev-ref"; "HEAD"]) as [raw|e]; cbn;
        eexists; (split; [reflexivity|]); split.
      * intros _ raw' _ [= <-]. reflexivity.
      * intros [H|H]; [destruct (H u eq_refl) | destruct (H raw eq_refl)].
      * intros _ raw' _ [=].
      * reflexivity.
    + destruct (git_branch t ["-a"]) as [all|e]; cbn;
        eexists; (split; [reflexivity|]); split.
      * intros _ all' _ [= <-]. reflexivity.
      * intros [H|H]; [destruct (H u eq_refl) | destruct (H all eq_refl)].
      * intros _ all' _ [=].
      * reflexivity.
    + destruct (git_revparse h ["--git-dir"]) as [dir|e]; cbn;
        eexists; (split; [reflexivity|]).
      * split; [eauto|reflexivity].
      * split; [discriminate | intros [_ [dir [=]]]].
    + destruct (git_diff t ["HEAD"; "-U3"; "--"; filePath]) as [raw|e]; cbn;
        eexists; (split; [reflexivity|]); split.
      * intros _ raw' _ [= <-]. reflexivity.
      * intros [H|H]; [destruct (H u eq_refl) | destruct (H raw eq_refl)].
      * intros _ raw' _ [=].
      * reflexivity.
  - split; [|split; [|split]]; eexists; (split; [reflexivity|]).
    + split; [intros u raw [=] | reflexivity].
    + split; [intros u all [=] | reflexivity].
    + split; [discriminate | intros [[u [=]] _]].
    + split; [intros u raw [=] | reflexivity].
Qed.

(** X7. [getFileContent] never throws: it reads the file at the path
    itself when that path is absolute and at the path joined to the
    working directory otherwise, only after [access] succeeded, and gives
    the empty string when [access] or the read fails.  [deleteFile] never
    throws either, whatever [unlink] does.  [revertFile] has no handler:
    it throws exactly when the client or the checkout throws. *)
Theorem file_operations_errors :
  forall h t filePath,
    let absolutePath :=
      if path_isAbsolute h filePath then filePath else path_join h (cwd h) filePath in
    (exists content, getFileContent h t filePath = Ret content
       /\ (forall e, fs_access t absolutePath = Throw e -> content = "")
       /\ (forall e, fs_readFile t absolutePath = Throw e -> content = "")
       /\ (forall u text, fs_access t absolutePath = Ret u ->
             fs_readFile t absolutePath = Ret text -> content = text))
    /\ deleteFile h t filePath = Ret tt
    /\ (forall e, revertFile h t filePath = Throw e <->
          simpleGit h = Throw e
          \/ ((exists u, simpleGit h = Ret u)
              /\ git_checkout t ["HEAD"; "--"; filePath] = Throw e)).
Proof.
  intros h t filePath. cbn zeta. unfold getFileContent, deleteFile, revertFile.
  split; [|split].
  - destruct (fs_access t _) as [u|e]; cbn.
    + destruct (fs_readFile t _) as [text|e]; cbn; eexists; (split; [reflexivity|]).
      * split; [intros e [=]|]. split; [intros e [=]|].
        intros _ text' _ [= <-]. reflexivity.
      * split; [reflexivity|]. split; [reflexivity|]. intros _ text' _ [=].
    + eexists. split; [reflexivity|]. split; [reflexivity|]. split; [reflexivity|].
      intros u text [=].
  - destruct (fs_unlink t _) as [[]|e]; reflexivity.
  - intros e. destruct (simpleGit h) as [u|e']; cbn.
    + split; [intros H; right; eauto | intros [[=]|[_ H]]; exact H].
    + split; [intros [= ->]; left; reflexivity | intros [[= ->]|[[u [=]] _]]; reflexivity].
Qed.

Import Views Keys.

(** ** Truncation in the views *)
Section Truncation.

Lemma append_length (a b : string) :
  String.length (a +:+ b) = (String.length a + String.length b)%nat.
Proof.
  induction a as [|c a IH]; [reflexivity|]. rewrite append_cons. cbn. rewrite IH.
  reflexivity.
Qed.

Lemma repeatString_unit_length (c : ascii) (n : nat) :
  String.length (repeatString (String c "") n) = n.
Proof.
  induction n as [|n IH]; [reflexivity|]. cbn [repeatString].
  rewrite append_cons, append_empty_l. cbn [String.length]. rewrite IH. reflexivity.
Qed.

Lemma substringTo_length (s : string) (n : Z) :
  0 <= n <= Z.of_nat (String.length s) ->
  Z.of_nat (String.length (substringTo s n)) = n.
Proof.
  intros H. unfold substringTo. rewrite substring0_length. lia.
Qed.

(** The cut keeps the beginning of the text and ends with three dots. *)
Lemma ellipsis_cut (s : string) (maxLength : Z) :
  3 <= maxLength < Z.of_nat (String.length s) ->
  let r := substringTo s (maxLength - 3) +:+ "..." in
  Z.of_nat (String.length r) = maxLength
  /\ String.prefix (substringTo s (maxLength - 3)) s = true
  /\ Z.of_nat (String.length (substringTo s (maxLength - 3))) = maxLength - 3.
Proof.
  intros H. cbn zeta. rewrite append_length.
  pose proof (substringTo_length s (maxLength - 3) ltac:(lia)) as Hl.
  split; [cbn; lia|]. split; [apply substring0_prefix | exact Hl].
Qed.

End Truncation.

(** X8. [truncatePath] leaves a path that fits as it is; a longer path
    becomes exactly [maxLength] code units: the first [maxLength - 3] of
    the path followed by three dots or, for a [maxLength] of 3 or less,
    dots only.  A negative [maxLength] makes it throw. *)
Theorem truncatePath_fits :
  forall path maxLength,
    (Z.of_nat (String.length path) <= maxLength -> truncatePath path maxLength = Ret path)
    /\ (0 <= maxLength < Z.of_nat (String.length path) ->
        exists r,
          truncatePath path maxLength = Ret r
          /\ Z.of_nat (String.length r) = maxLength
          /\ (maxLength <= 3 -> r = repeatString "." (Z.to_nat maxLength))
          /\ (3 < maxLength ->
              r = substringTo path (maxLength - 3) +:+ "..."
              /\ String.prefix (substringTo path (maxLength - 3)) path = true
              /\ Z.of_nat (String.length (substringTo path (maxLength - 3)))
                 = maxLength - 3))
    /\ (maxLength < 0 -> exists e, truncatePath path maxLength = Throw e).
Proof.
  intros path maxLength. unfold truncatePath, repeat. split; [|split].
  - intros H. destruct (Z.leb_spec (Z.of_nat (String.length path)) maxLength); [reflexivity|lia].
  - intros H. destruct (Z.leb_spec (Z.of_nat (String.length path)) maxLength); [lia|].
    destruct (Z.leb_spec maxLength 3).
    + destruct (Z.ltb_spec maxLength 0); [lia|]. eexists. split; [reflexivity|].
      split; [rewrite repeatString_unit_length; lia|]. split; [reflexivity | lia].
    + eexists. split; [reflexivity|].
      destruct (ellipsis_cut path maxLength ltac:(lia)) as (E1 & E2 & E3).
      split; [exact E1|]. split; [lia|]. intros _. auto.
  - intros H. destruct (Z.leb_spec (Z.of_nat (String.length path)) maxLength); [lia|].
    destruct (Z.leb_spec maxLength 3); [|lia].
    destruct (Z.ltb_spec maxLength 0); [eauto | lia].
Qed.

Example truncatePath_examples :
  truncatePath "this/is/a/very/long/file/path/that/should/be/truncated.tsx" 20
  = Ret "this/is/a/very/lo..."
  /\ truncatePath "this/is/a/very/long/file/path/that/should/be/truncated.tsx" 3
     = Ret "..."
  /\ truncatePath "this/is/a/very/long/file/path/that/should/be/truncated.tsx" 1
     = Ret "."
  /\ truncatePath "short/file.ts" 50 = Ret "short/file.ts".
Proof. repeat split. Qed.

(** X9. [formatMessage] leaves a message that fits as it is; for a width
    of at least 3 a longer message becomes exactly [maxLength] code units,
    its first [maxLength - 3] followed by three dots (57 and 3 for the
    default width of 60); for a width below 3 a longer message becomes the
    three dots alone, which is wider than asked. *)
Theorem formatMessage_fits :
  forall message maxLength,
    (Z.of_nat (String.length message) <= maxLength ->
     formatMessage message maxLength = message)
    /\ (3 <= maxLength < Z.of_nat (String.length message) ->
        formatMessage message maxLength = substringTo message (maxLength - 3) +:+ "..."
        /\ Z.of_nat (String.length (formatMessage message maxLength)) = maxLength
        /\ String.prefix (substringTo message (maxLength - 3)) message = true
        /\ Z.of_nat (String.length (substringTo message (maxLength - 3)))
           = maxLength - 3)
    /\ (maxLength < 3 -> maxLength < Z.of_nat (String.length message) ->
        formatMessage message maxLength = "...").
Proof.
  intros message maxLength. unfold formatMessage. split; [|split].
  - intros H. destruct (Z.leb_spec (Z.of_nat (String.length message)) maxLength);
      [reflexivity | lia].
  - intros H. destruct (Z.leb_spec (Z.of_nat (String.length message)) maxLength); [lia|].
    destruct (ellipsis_cut message maxLength ltac:(lia)) as (E1 & E2 & E3). auto.
  - intros Hw Hl.
    destruct (Z.leb_spec (Z.of_nat (String.length message)) maxLength); [lia|].
    unfold substringTo. replace (Z.to_nat (maxLength - 3)) with 0%nat by lia.
    destruct message; reflexivity.
Qed.

Example formatMessage_example :
  formatMessage
    "This is a very long commit message that exceeds the maximum allowed length" 60
  = "This is a very long commit message that exceeds the maxim...".
Proof. reflexivity. Qed.


(** ** Selection and scrolling *)

(** X11. In the history view a selected row within a list of commits
    stays within it under every sequence of the keys up, down, page up and
    page down.  With no commit, down and page down move the row from 0 to
    -1. *)
Theorem selectRow_in_range :
  (forall commitsLength keys selectedRow,
     0 <= selectedRow < commitsLength ->
     0 <= fold_left (fun r k => selectRow commitsLength k r) keys selectedRow
       < commitsLength)
  /\ selectRow 0 RowDown 0 = -1
  /\ selectRow 0 RowPageDown 0 = -1.
Proof.
  split; [|split; reflexivity].
  intros len keys. induction keys as [|k keys IH]; intros r Hr; [exact Hr|].
  cbn [fold_left]. apply IH. destruct k; cbn; lia.
Qed.

(** X12. In the file list a selection within the view stays within it
    under every sequence of up keys, down keys and wheel events; a wheel
    event other than wheel-up (button 4) and wheel-down (button 5) moves
    nothing; the wheel brings any selection, also one out of range, back
    into the view (to 0 when the view is empty), while the down key on an
    empty view moves the selection from 0 to -1. *)
Theorem move_in_range :
  (forall filteredLength moves i,
     0 <= i < filteredLength ->
     0 <= fold_left (fun i m => move filteredLength m i) moves i < filteredLength)
  /\ (forall filteredLength button i,
        button <> 4 -> button <> 5 -> move filteredLength (Wheel button) i = i)
  /\ (forall filteredLength button i,
        button = 4 \/ button = 5 ->
        0 <= move filteredLength (Wheel button) i <= Z.max 0 (filteredLength - 1))
  /\ move 0 MoveDown 0 = -1.
Proof.
  split; [|split; [|split; [|reflexivity]]].
  - intros len moves. induction moves as [|m moves IH]; intros i Hi; [exact Hi|].
    cbn [fold_left]. apply IH. destruct m as [| |button]; cbn.
    + unfold keyUp. lia.
    + unfold keyDown. lia.
    + unfold wheelDelta, onScroll.
      destruct (button =? 4); cbn; [lia|]. destruct (button =? 5); cbn; lia.
  - intros len button i H4 H5. cbn. unfold wheelDelta.
    destruct (Z.eqb_spec button 4); [contradiction|].
    destruct (Z.eqb_spec button 5); [contradiction|]. reflexivity.
  - intros len button i [->| ->]; cbn; unfold onScroll; cbn; lia.
Qed.

(** X13. After the effect that follows the selection, the selected row
    lies within the viewport: not above its top and less than its height
    below it (the height counts as 10 when it is missing or 0).  A
    selection that was within the viewport leaves the scroll position
    alone, and running the effect again changes nothing. *)
Theorem followSelection_visible :
  forall height scrollTop selectedIndex,
    let viewportHeight := match height with
                          | Some v => if v =? 0 then 10 else v
                          | None => 10
                          end in
    let top := followSelection height scrollTop selectedIndex in
    (0 < viewportHeight -> top <= selectedIndex < top + viewportHeight)
    /\ (scrollTop <= selectedIndex < scrollTop + viewportHeight -> top = scrollTop)
    /\ (0 < viewportHeight -> followSelection height top selectedIndex = top).
Proof.
  intros height scrollTop selectedIndex. cbn zeta. unfold followSelection.
  set (vh := match height with
             | Some v => if v =? 0 then 10 else v
             | None => 10
             end).
  destruct (Z.ltb_spec selectedIndex scrollTop) as [H1|H1].
  - split; [lia|]. split; [lia|]. intros Hv.
    destruct (Z.ltb_spec selectedIndex selectedIndex); [lia|].
    destruct (Z.geb_spec selectedIndex (selectedIndex + vh)); [lia | reflexivity].
  - destruct (Z.geb_spec selectedIndex (scrollTop + vh)) as [H2|H2].
    + split; [lia|]. split; [lia|]. intros Hv.
      destruct (Z.ltb_spec selectedIndex (selectedIndex - vh + 1)); [lia|].
      destruct (Z.geb_spec selectedIndex (selectedIndex - vh + 1 + vh)); [lia|reflexivity].
    + split; [lia|]. split; [reflexivity|]. intros Hv.
      destruct (Z.ltb_spec selectedIndex scrollTop); [lia|].
      destruct (Z.geb_spec selectedIndex (scrollTop + vh)); [lia | reflexivity].
Qed.

(** ** Soft wrapping in the diff view *)
Section Wrap.

Lemma substring0_from (s : string) (n : nat) :
  substring 0 n s +:+ substringFrom s n = s.
Proof.
  revert s. induction n as [|n IH]; intros [|c s]; try reflexivity.
  cbn [substring substringFrom]. rewrite append_cons, IH. reflexivity.
Qed.

Lemma substringFrom_length (s : string) (n : nat) :
  String.length (substringFrom s n) = (String.length s - n)%nat.
Proof.
  revert s. induction n as [|n IH]; intros [|c s]; try reflexivity.
  cbn [substringFrom String.length]. rewrite IH. lia.
Qed.

Lemma lastIndexOf_found (c : ascii) (s : string) :
  forall position i,
    lastIndexOf c s position = Some i ->
    (i <= position)%nat /\ (i < String.length s)%nat
    /\ exists pre, substring 0 (S i) s = pre +:+ String c "".
Proof.
  induction s as [|d s IH]; intros position i H; [discriminate|].
  cbn [lastIndexOf] in H.
  assert (Hhere : (if Ascii.eqb d c then Some 0%nat else None) = Some i ->
                  (i <= position)%nat /\ (i < String.length (String d s))%nat
                  /\ exists pre, substring 0 (S i) (String d s) = pre +:+ String c "").
  { destruct (Ascii.eqb_spec d c) as [->|]; [|discriminate]. intros [= <-].
    split; [lia|]. split; [cbn; lia|]. exists "". destruct s; reflexivity. }
  destruct position as [|p]; [exact (Hhere H)|].
  destruct (lastIndexOf c s p) as [j|] eqn:E.
  - injection H as <-. destruct (IH p j E) as (H1 & H2 & pre & Hpre).
    split; [lia|]. split; [cbn; lia|]. exists (String d pre).
    change (substring 0 (S (S j)) (String d s)) with (String d (substring 0 (S j) s)).
    rewrite Hpre, append_cons. reflexivity.
  - destruct (Hhere H) as (H1 & H2 & H3). split; [lia|]. auto.
Qed.

Lemma concat_empty_cons (x : string) (xs : list string) :
  String.concat "" (x :: xs) = x +:+ String.concat "" xs.
Proof.
  destruct xs as [|y ys]; cbn [String.concat]; [symmetry; apply append_empty_r|].
  reflexivity.
Qed.

Lemma wrapLoop_spec (maxLength : nat) :
  (1 <= maxLength)%nat ->
  forall fuel remaining lines,
    (String.length remaining < fuel)%nat ->
    exists out,
      wrapLoop fuel maxLength remaining lines = Some (lines ++ out)
      /\ String.concat "" out = remaining
      /\ Forall (fitsWidth maxLength) out.
Proof.
  intros Hm. induction fuel as [|fuel IH]; intros remaining lines Hf; [lia|].
  cbn [wrapLoop].
  destruct (Nat.ltb_spec 0 (String.length remaining)) as [Hpos|Hzero].
  - destruct (Nat.leb_spec (String.length remaining) maxLength) as [Hfit|Hlong].
    + exists [remaining]. split; [reflexivity|]. split; [reflexivity|].
      constructor; [|constructor]. split; [|left; exact Hfit].
      destruct remaining; [cbn in Hpos; lia | discriminate].
    + set (breakIndex :=
             match lastIndexOf " " remaining maxLength with
             | Some lastSpace =>
                 if (maxLength <? 2 * lastSpace)%nat then S lastSpace else maxLength
             | None => maxLength
             end).
      assert (Hb : (1 <= breakIndex <= String.length remaining)%nat
                   /\ fitsWidth maxLength (substring 0 breakIndex remaining)).
      { assert (Hmax : fitsWidth maxLength (substring 0 maxLength remaining)).
        { split; [|left; rewrite substring0_length; lia].
          intros E. apply (f_equal String.length) in E.
          rewrite substring0_length in E. change (String.length "") with 0%nat in E. lia. }
        unfold breakIndex.
        destruct (lastIndexOf " " remaining maxLength) as [i|] eqn:E; [|split; [lia|exact Hmax]].
        destruct (Nat.ltb_spec maxLength (2 * i)); [|split; [lia|exact Hmax]].
        destruct (lastIndexOf_found _ _ _ _ E) as (H1 & H2 & pre & Hpre).
        split; [lia|]. split.
        - intros E'. apply (f_equal String.length) in E'.
          rewrite substring0_length in E'. change (String.length "") with 0%nat in E'. lia.
        - rewrite substring0_length.
          destruct (Nat.eq_dec i maxLength) as [->|Hne]; [right|left; lia].
          split; [lia|]. exists pre. exact Hpre. }
      destruct Hb as [Hb Hpiece].
      destruct (IH (substringFrom remaining breakIndex)
                   (lines ++ [substring 0 breakIndex remaining]))
        as (out & Hout & Hcat & Hfits).
      { rewrite substringFrom_length. lia. }
      exists (substring 0 breakIndex remaining :: out).
      split; [rewrite Hout, <- app_assoc; reflexivity|].
      split; [rewrite concat_empty_cons, Hcat; apply substring0_from|].
      constructor; assumption.
  - exists []. split; [rewrite app_nil_r; reflexivity|].
    split; [|constructor]. destruct remaining; [reflexivity | cbn in Hzero; lia].
Qed.

Lemma substringFrom_zero (s : string) : substringFrom s 0 = s.
Proof. destruct s; reflexivity. Qed.

Lemma wrapLoop_stuck (fuel : nat) :
  forall remaining lines,
    remaining <> "" -> wrapLoop fuel 0 remaining lines = None.
Proof.
  induction fuel as [|fuel IH]; intros remaining lines Hne; [reflexivity|].
  cbn [wrapLoop].
  assert (Hlen : (0 < String.length remaining)%nat).
  { destruct remaining; [contradiction | cbn; lia]. }
  destruct (Nat.ltb_spec 0 (String.length remaining)); [|lia].
  destruct (Nat.leb_spec (String.length remaining) 0); [lia|].
  assert (E : match lastIndexOf " " remaining 0 with
              | Some lastSpace => if (0 <? 2 * lastSpace)%nat then S lastSpace else 0%nat
              | None => 0%nat
              end = 0%nat).
  { destruct remaining as [|c s]; [contradiction|]. cbn.
    destruct (Ascii.eqb c " "); reflexivity. }
  rewrite E, substringFrom_zero. apply IH, Hne.
Qed.

End Wrap.

(** X14. For a width of at least 1, [wrapLine] ends and loses nothing:
    the lines it gives, joined, are the text.  A text within the width is
    its only line.  Of a text beyond it no line is empty, and every line
    is within the width, except that a line broken after a space that
    stands right behind the width keeps that space and is one code unit
    wider.  For a width of 0 the loop never ends on a text that is not
    empty. *)
Theorem wrapLine_preserves_text :
  (forall text maxLength fuel,
     (1 <= maxLength)%nat -> (String.length text < fuel)%nat ->
     exists lines,
       wrapLine fuel text maxLength = Some lines
       /\ String.concat "" lines = text
       /\ ((String.length text <= maxLength)%nat -> lines = [text])
       /\ (text <> "" -> Forall (fitsWidth maxLength) lines))
  /\ (forall text fuel, text <> "" -> wrapLine fuel text 0 = None).
Proof.
  split.
  - intros text maxLength fuel Hm Hf. unfold wrapLine.
    destruct (Nat.leb_spec (String.length text) maxLength) as [Hfit|Hlong].
    + exists [text]. split; [reflexivity|]. split; [reflexivity|].
      split; [reflexivity|]. intros Hne. constructor; [|constructor].
      split; [exact Hne | left; exact Hfit].
    + destruct (wrapLoop_spec maxLength Hm fuel text [] Hf) as (out & E & Hcat & Hfits).
      exists out. split; [exact E|]. split; [exact Hcat|]. split; [lia | auto].
  - intros text fuel Hne. unfold wrapLine.
    destruct (Nat.leb_spec (String.length text) 0) as [H0|H0].
    + destruct text; [contradiction | cbn in H0; lia].
    + apply wrapLoop_stuck, Hne.
Qed.

Example wrapLine_examples :
  wrapLine 100 "aaa bbb ccc ddd" 6 = Some ["aaa bb"; "b ccc "; "ddd"]
  /\ wrapLine 100 "aaaaaa bbb" 6 = Some ["aaaaaa "; "bbb"]
  /\ wrapLine 100 "ab" 0 = None.
Proof. repeat split. Qed.

(** ** The polling flag and the refresh of the current render *)
Section PollingMore.

Lemma refresh_resume_searchActive (render store : State) (newFiles : list FileStatus) :
  searchActive (refresh_resume render newFiles store) = searchActive store.
Proof.
  unfold refresh_resume.
  destruct (selectedIndex render >=? Z.of_nat (length newFiles)); reflexivity.
Qed.

Lemma commit_fresh (before after : State) (c : Component) :
  searchActive (pollRender c) = searchActive before ->
  searchActive (pollRender (commit before after c)) = searchActive after.
Proof.
  intros H. unfold commit. cbn.
  destruct (Bool.eqb (searchActive before) (searchActive after)) eqn:E; [|reflexivity].
  apply Bool.eqb_prop in E. congruence.
Qed.

Lemma step_fresh (c : Component) (e : Event) :
  searchActive (pollRender c) = searchActive (store c) ->
  searchActive (pollRender (step c e)) = searchActive (store (step c e)).
Proof.
  intros H. destruct e as [|k newFiles|render|index|q| |]; cbn [step].
  - destruct (refresh_starts (pollRender c) true); exact H.
  - destruct (inflight c !! k); [|exact H]. cbn.
    rewrite refresh_resume_searchActive. exact H.
  - destruct (refresh_starts render false); exact H.
  - apply commit_fresh, H.
  - apply commit_fresh, H.
  - apply commit_fresh, H.
  - apply commit_fresh, H.
Qed.

Lemma run_fresh (events : list Event) :
  forall c, searchActive (pollRender c) = searchActive (store c) ->
            searchActive (pollRender (run c events))
            = searchActive (store (run c events)).
Proof.
  induction events as [|e events IH]; intros c H; [exact H|].
  apply (IH (step c e)), step_fresh, H.
Qed.

End PollingMore.

(** X15. At every point of every run of the mounted component, the
    [searchActive] that the interval's [refresh] sees is the current one.
    So a tick while a search is active starts no pass and changes nothing,
    and a tick while none is active starts a pass. *)
Theorem polling_sees_current_search_flag :
  forall events,
    let c := run mounted events in
    searchActive (pollRender c) = searchActive (store c)
    /\ (searchActive (store c) = true -> step c Tick = c)
    /\ (searchActive (store c) = false ->
        inflight (step c Tick) = inflight c ++ [pollRender c]
        /\ store (step c Tick) = store c).
Proof.
  intros events. cbn zeta.
  pose proof (run_fresh events mounted eq_refl) as H.
  split; [exact H|]. split.
  - intros Ha. unfold step, refresh_starts. rewrite H, Ha. reflexivity.
  - intros Ha. unfold step, refresh_starts. rewrite H, Ha. split; reflexivity.
Qed.

(** X16. When a [refresh] that belongs to the current render resolves,
    the store holds the new snapshot, a selection that was not negative
    ends within the new snapshot (at 0 when it is empty), a selection
    that was within it is kept, and the search cells and the error
    notification are as before. *)
Theorem refresh_of_current_render (render store : State) (newFiles : list FileStatus) :
  selectedIndex render = selectedIndex store ->
  0 <= selectedIndex store ->
  let s := refresh_resume render newFiles store in
  allFiles s = newFiles
  /\ 0 <= selectedIndex s <= Z.max 0 (Z.of_nat (length newFiles) - 1)
  /\ (selectedIndex store < Z.of_nat (length newFiles) ->
      selectedIndex s = selectedIndex store)
  /\ (newFiles <> [] -> is_Some (allFiles s !! Z.to_nat (selectedIndex s)))
  /\ searchQuery s = searchQuery store
  /\ searchActive s = searchActive store
  /\ searchResults s = searchResults store
  /\ errorNotification s = errorNotification store.
Proof.
  intros Hcur Hpos. cbn zeta. unfold refresh_resume. rewrite Hcur.
  destruct (Z.geb_spec (selectedIndex store) (Z.of_nat (length newFiles))) as [Hge|Hlt];
    cbn.
  - split; [reflexivity|]. split; [lia|]. split; [lia|].
    split; [|repeat split].
    intros Hne. apply lookup_lt_is_Some.
    destruct newFiles; [contradiction | cbn [length]; lia].
  - split; [reflexivity|]. split; [lia|]. split; [reflexivity|].
    split; [|repeat split].
    intros _. apply lookup_lt_is_Some. lia.
Qed.

Lemma refresh_of_current_render_witness :
  let store := setSelectedIndex 5 initialState in
  let newFiles := [mkFileStatus "a" unstaged 2; mkFileStatus "b" unstaged 1] in
  let s := refresh_resume store newFiles store in
  allFiles s = newFiles
  /\ 0 <= selectedIndex s <= Z.max 0 (Z.of_nat (length newFiles) - 1)
  /\ (selectedIndex store < Z.of_nat (length newFiles) ->
      selectedIndex s = selectedIndex store)
  /\ (newFiles <> [] -> is_Some (allFiles s !! Z.to_nat (selectedIndex s)))
  /\ searchQuery s = searchQuery store
  /\ searchActive s = searchActive store
  /\ searchResults s = searchResults store
  /\ errorNotification s = errorNotification store.
Proof.
  apply (refresh_of_current_render
           (setSelectedIndex 5 initialState)
           (setSelectedIndex 5 initialState)
           [mkFileStatus "a" unstaged 2; mkFileStatus "b" unstaged 1]).
  - reflexivity.
  - cbn. lia.
Defined.

Import Keyboard.

(** ** The keyboard handler *)
Section KeyboardFacts.

Lemma dropLast_append_unit (q : string) (c : ascii) :
  dropLast (q +:+ String c "") = q.
Proof.
  induction q as [|d q IH]; [reflexivity|].
  rewrite append_cons. cbn [dropLast]. rewrite IH.
  destruct q; reflexivity.
Qed.

Lemma allUnits_append (p : ascii -> bool) (a b : string) :
  allUnits p (a +:+ b) = allUnits p a && allUnits p b.
Proof.
  induction a as [|c a IH]; [reflexivity|].
  rewrite append_cons. cbn. rewrite IH, andb_assoc. reflexivity.
Qed.

Lemma allUnits_dropLast (p : ascii -> bool) (s : string) :
  allUnits p s = true -> allUnits p (dropLast s) = true.
Proof.
  induction s as [|c s IH]; [reflexivity|]. cbn [allUnits dropLast].
  intros H. apply andb_true_iff in H as [Hc Hs].
  destruct s as [|d s]; [reflexivity|]. cbn [allUnits]. rewrite Hc. cbn. apply IH, Hs.
Qed.

Lemma typed_printable (key : Key) (text : string) :
  typed key = Some text ->
  exists c, text = String c "" /\ printable c = true
            /\ ctrl key = false /\ meta key = false.
Proof.
  unfold typed. destruct (sequence key) as [[|c [|d s]]|]; try discriminate.
  destruct (ctrl key), (meta key); cbn; try discriminate.
  destruct (printable c) eqn:E; [|discriminate]. intros [= <-]. eauto.
Qed.

(** A key of search mode leaves the cells outside the search alone. *)
Lemma searchModeKey_cells_kept (render : Ui) (key : Key) (store : Ui) :
  let u := searchModeKey render key store in
  allFiles (cells u) = allFiles (cells store)
  /\ searchResults (cells u) = searchResults (cells store)
  /\ errorNotification (cells u) = errorNotification (cells store)
  /\ focused u = focused store
  /\ confirmRevert u = confirmRevert store
  /\ confirmDelete u = confirmDelete store
  /\ historyMode u = historyMode store.
Proof.
  cbn zeta. unfold searchModeKey.
  destruct (nameIs key "escape"); [repeat split|].
  destruct (nameIs key "backspace"); [repeat split|].
  destruct (nameIs key "enter" || nameIs key "return"); [repeat split|].
  destruct (typed key); repeat split.
Qed.

End KeyboardFacts.

(** X17. The modes of the keyboard handler exclude one another in this
    order.  While an error notification is shown a key only dismisses it.
    Otherwise, in the history view a key changes nothing, and only [q]
    does something: it quits.  Otherwise, in search mode no key starts an
    operation, whatever its name: it can change the search cells and the
    selection only. *)
Theorem handleKey_modes :
  forall render key store,
    (errorShown render = true ->
     handleKey render key store = (withCells (setErrorNotification None) store, None))
    /\ (errorShown render = false -> historyMode render = true ->
        fst (handleKey render key store) = store
        /\ (snd (handleKey render key store) = Some Exit <-> name key = "q")
        /\ (name key <> "q" -> snd (handleKey render key store) = None))
    /\ (errorShown render = false -> historyMode render = false ->
        searchMode render = true ->
        let u := fst (handleKey render key store) in
        snd (handleKey render key store) = None
        /\ allFiles (cells u) = allFiles (cells store)
        /\ searchResults (cells u) = searchResults (cells store)
        /\ focused u = focused store
        /\ confirmRevert u = confirmRevert store
        /\ confirmDelete u = confirmDelete store
        /\ historyMode u = historyMode store).
Proof.
  intros render key store. unfold handleKey. split; [|split].
  - intros ->. reflexivity.
  - intros -> ->. unfold nameIs.
    destruct (String.eqb_spec (name key) "q") as [E|E]; cbn.
    + split; [reflexivity|]. split; [tauto | contradiction].
    + split; [reflexivity|]. split; [split; [discriminate | contradiction] | reflexivity].
  - intros -> -> ->. cbn.
    destruct (searchModeKey_cells_kept render key store) as (H1 & H2 & H3 & H4 & H5 & H6 & H7).
    auto 10.
Qed.

(** X18. In search mode the query only ever holds printable code units:
    a key adds its one code unit when that is in the range 0x20-0x7E or
    from 0xA0 on and neither ctrl nor meta is held, and adds nothing
    otherwise.  Backspace removes the last code unit, so it undoes the key
    typed before it. *)
Theorem search_query_printable :
  (forall render key store,
     allUnits printable (searchQuery (cells store)) = true ->
     allUnits printable (searchQuery (cells (searchModeKey render key store))) = true)
  /\ (forall render key store c,
        name key <> "escape" -> name key <> "backspace" ->
        name key <> "enter" -> name key <> "return" ->
        sequence key = Some (String c "") ->
        searchQuery (cells (searchModeKey render key store))
        = if negb (ctrl key) && negb (meta key) && printable c
          then searchQuery (cells store) +:+ String c ""
          else searchQuery (cells store))
  /\ (forall render render' key store text,
        typed key = Some text ->
        name key <> "escape" -> name key <> "backspace" ->
        name key <> "enter" -> name key <> "return" ->
        searchQuery (cells (searchModeKey render' (mkKey "backspace" None false false)
                                          (searchModeKey render key store)))
        = searchQuery (cells store)).
Proof.
  split; [|split].
  - intros render key store H. unfold searchModeKey.
    destruct (nameIs key "escape"); [reflexivity|].
    destruct (nameIs key "backspace"); [cbn; apply allUnits_dropLast, H|].
    destruct (nameIs key "enter" || nameIs key "return"); [exact H|].
    destruct (typed key) as [text|] eqn:E; [|exact H].
    destruct (typed_printable key text E) as (c & -> & Hc & _).
    cbn. rewrite allUnits_append, H. cbn. rewrite Hc. reflexivity.
  - intros render key store c N1 N2 N3 N4 Hseq. unfold searchModeKey, nameIs.
    apply String.eqb_neq in N1, N2, N3, N4. rewrite N1, N2, N3, N4. cbn [orb].
    unfold typed. rewrite Hseq.
    destruct (negb (ctrl key) && negb (meta key) && printable c); reflexivity.
  - intros render render' key store text Ht N1 N2 N3 N4.
    destruct (typed_printable key text Ht) as (c & -> & _).
    unfold searchModeKey at 1. cbn [nameIs name String.eqb Ascii.eqb Bool.eqb].
    unfold searchModeKey, nameIs.
    apply String.eqb_neq in N1, N2, N3, N4. rewrite N1, N2, N3, N4. cbn [orb].
    rewrite Ht. cbn. apply dropLast_append_unit.
Qed.

(** X19. Leaving search mode.  Escape empties the query, ends the
    search and the mode, and selects row 0: the view is the whole
    snapshot again.  Enter ends the mode and selects row 0; the search is
    active after it exactly when the query, trimmed, is not empty, so
    Enter on a blank query also shows the whole snapshot. *)
Theorem search_mode_exit :
  forall render store,
    (let u := searchModeKey render (mkKey "escape" None false false) store in
     searchMode u = false
     /\ searchQuery (cells u) = ""
     /\ searchActive (cells u) = false
     /\ selectedIndex (cells u) = 0
     /\ filteredFiles (cells u) = allFiles (cells store))
    /\ (forall keyName, keyName = "enter" \/ keyName = "return" ->
        let u := searchModeKey render (mkKey keyName None false false) store in
        searchMode u = false
        /\ selectedIndex (cells u) = 0
        /\ searchQuery (cells u) = searchQuery (cells store)
        /\ (searchActive (cells u) = true
            <-> trim (searchQuery (cells render)) <> "")
        /\ (trim (searchQuery (cells render)) = "" ->
            filteredFiles (cells u) = allFiles (cells store))).
Proof.
  intros render store. split.
  - cbn. repeat split.
  - intros keyName Hk.
    assert (E : searchModeKey render (mkKey keyName None false false) store
                = withCells
                    (fun s =>
                       setSelectedIndex 0
                         (setSearchActive
                            (0 <? Z.of_nat (String.length (trim (searchQuery (cells render)))))
                            s))
                    (setSearchMode false store)).
    { destruct Hk as [-> | ->]; reflexivity. }
    cbn zeta. rewrite E. cbn.
    split; [reflexivity|]. split; [reflexivity|]. split; [reflexivity|].
    destruct (trim (searchQuery (cells render))) as [|c t] eqn:Et.
    + cbn. split; [split; [discriminate | congruence]|]. intros _. reflexivity.
    + split; [|discriminate]. split; [discriminate|]. intros _.
      cbn [String.length]. apply Z.ltb_lt. lia.
Qed.

(** X20. [revertFile] and [deleteFileSafely] are started by one key
    only: [y], while a confirmation is open and no error notification,
    history view or search mode is in front of it, and for the file that
    is selected in the view; the confirmation then stays open until the
    operation ends.  Under the revert confirmation a file of status new
    is deleted, not reverted, and any other file is reverted; under the
    delete confirmation, which is looked at only when the revert
    confirmation is closed, the file is deleted.  With a confirmation
    open, every other key, and [y] without a selected file, closes the
    confirmation and starts nothing. *)
Theorem destructive_operations_confirmed :
  forall render key store,
    (forall file,
       snd (handleKey render key store) = Some (RevertFile file) ->
       name key = "y" /\ confirmRevert render = true
       /\ selectedFile render = Some file /\ status file <> new
       /\ errorShown render = false /\ historyMode render = false
       /\ searchMode render = false
       /\ fst (handleKey render key store) = store)
    /\ (forall file,
          snd (handleKey render key store) = Some (DeleteNewFile file) ->
          name key = "y" /\ confirmRevert render = true
          /\ selectedFile render = Some file /\ status file = new
          /\ errorShown render = false /\ historyMode render = false
          /\ searchMode render = false
          /\ fst (handleKey render key store) = store)
    /\ (forall file,
          snd (handleKey render key store) = Some (DeleteFile file) ->
          name key = "y" /\ confirmDelete render = true
          /\ confirmRevert render = false
          /\ selectedFile render = Some file
          /\ errorShown render = false /\ historyMode render = false
          /\ searchMode render = false
          /\ fst (handleKey render key store) = store)
    /\ (errorShown render = false -> historyMode render = false ->
        searchMode render = false -> confirmRevert render = true ->
        forall file, name key = "y" -> selectedFile render = Some file ->
        handleKey render key store
        = (store, Some (if decide (status file = new) then DeleteNewFile file
                        else RevertFile file)))
    /\ (errorShown render = false -> historyMode render = false ->
        searchMode render = false -> confirmRevert render = false ->
        confirmDelete render = true ->
        forall file, name key = "y" -> selectedFile render = Some file ->
        handleKey render key store = (store, Some (DeleteFile file)))
    /\ (errorShown render = false -> historyMode render = false ->
        searchMode render = false -> confirmRevert render = true ->
        name key <> "y" \/ selectedFile render = None ->
        handleKey render key store = (setConfirmRevert false store, None))
    /\ (errorShown render = false -> historyMode render = false ->
        searchMode render = false -> confirmRevert render = false ->
        confirmDelete render = true ->
        name key <> "y" \/ selectedFile render = None ->
        handleKey render key store = (setConfirmDelete false store, None)).
Proof.
  intros render key store. unfold handleKey, nameIs.
  assert (Hnormal : forall file op,
            op = RevertFile file \/ op = DeleteNewFile file \/ op = DeleteFile file ->
            (if (name key =? "enter")%string || (name key =? "return")%string
             then match selectedFile render with
                  | Some f => Some (OpenFile (path f))
                  | None => None
                  end
             else None) <> Some op).
  { intros file op Hop.
    destruct ((name key =? "enter")%string || (name key =? "return")%string);
      [destruct (selectedFile render)|]; destruct Hop as [-> | [-> | ->]];
      discriminate. }
  destruct (errorShown render); [repeat split; intros; discriminate|].
  destruct (historyMode render).
  { repeat split; intros; try discriminate;
      destruct (name key =? "q")%string; discriminate. }
  destruct (searchMode render); [repeat split; intros; discriminate|].
  destruct (confirmRevert render).
  { destruct (String.eqb_spec (name key) "y") as [Ey|Ey].
    - destruct (selectedFile render) as [f|]; cbn.
      + split; [|split; [|split; [|split; [|split; [|split]]]]].
        * intros file H. destruct (status f) eqn:Es; cbn in H; try discriminate;
            injection H as <-; cbn; repeat split; congruence.
        * intros file H. destruct (status f) eqn:Es; cbn in H; try discriminate.
          injection H as <-. cbn. auto 10.
        * intros file H. destruct (status f); discriminate.
        * intros _ _ _ _ file _ [= <-].
          destruct (decide (status f = new)) as [E|E];
            destruct (status f); try reflexivity; congruence.
        * discriminate.
        * intros _ _ _ _ [H|H]; [contradiction | discriminate].
        * discriminate.
      + repeat split; intros; try discriminate; reflexivity.
    - cbn. repeat split; intros; try discriminate; try contradiction; reflexivity. }
  destruct (confirmDelete render).
  { destruct (String.eqb_spec (name key) "y") as [Ey|Ey].
    - destruct (selectedFile render) as [f|]; cbn.
      + split; [|split; [|split; [|split; [|split; [|split]]]]];
          try discriminate.
        * intros file [= <-]. auto 10.
        * intros _ _ _ _ _ file _ [= <-]. reflexivity.
        * intros _ _ _ _ _ [H|H]; [contradiction | discriminate].
      + repeat split; intros; try discriminate; reflexivity.
    - cbn. repeat split; intros; try discriminate; try contradiction; reflexivity. }
  destruct (name key =? "q")%string; [repeat split; intros; discriminate|].
  destruct (focused render); cbn [snd fst].
  - split; [intros file H; exfalso; eapply Hnormal; [left; reflexivity | exact H]|].
    split; [intros file H; exfalso; eapply Hnormal;
            [right; left; reflexivity | exact H]|].
    split; [intros file H; exfalso; eapply Hnormal;
            [right; right; reflexivity | exact H]|].
    repeat split; discriminate.
  - repeat split; intros; discriminate.
Qed.

Example revert_confirmation_deletes_new_file :
  let file := mkFileStatus "draft.ts" new 5 in
  let render := mkUi (setAllFiles [file] initialState) fileList true false false false in
  handleKey render (mkKey "y" (Some "y") false false) render
  = (render, Some (DeleteNewFile file)).
Proof. reflexivity. Qed.

(* --------------------------------------------------------------------- *)
(** ** The command line *)

Import Cli.

Section CommandLine.

Lemma isPathOption_branch arg :
  isPathOption arg ->
  (arg =? "--help")%string || (arg =? "-h")%string = false
  /\ (arg =? "--version")%string || (arg =? "-v")%string = false
  /\ (arg =? "--path")%string || (arg =? "-p")%string = true.
Proof. intros [-> | ->]; repeat split. Qed.

Lemma lastPath_cons p pairs result :
  lastPath (p :: pairs) result = lastPath pairs (Some (snd p)).
Proof.
  unfold lastPath. destruct pairs as [|q pairs]; [reflexivity|].
  rewrite last_cons. destruct (last (q :: pairs)) eqn:E; [reflexivity|].
  apply last_None in E. discriminate.
Qed.

Lemma parseLoop_optionPairs pairs :
  forall result,
    Forall (fun p => isPathOption (fst p)) pairs ->
    parseLoop (optionPairs pairs) result = Parsed (lastPath pairs result).
Proof.
  induction pairs as [|[flag value] pairs IH]; intros result Hall.
  - reflexivity.
  - inversion Hall as [|? ? Hflag Hrest]; subst.
    destruct (isPathOption_branch flag Hflag) as (E1 & E2 & E3).
    cbn [optionPairs flat_map fst snd app parseLoop].
    rewrite E1, E2, E3. fold (optionPairs pairs).
    rewrite (IH _ Hrest), lastPath_cons. reflexivity.
Qed.

Lemma parseLoop_parsed_pairs n :
  forall args result path,
    (length args <= n)%nat ->
    parseLoop args result = Parsed path ->
    exists pairs,
      args = optionPairs pairs
      /\ Forall (fun p => isPathOption (fst p)) pairs
      /\ path = lastPath pairs result.
Proof.
  induction n as [|n IH]; intros args result path Hlen Hrun.
  - destruct args; [|cbn in Hlen; lia].
    exists []. cbn in Hrun. injection Hrun as <-. repeat split. constructor.
  - destruct args as [|arg rest].
    + exists []. cbn in Hrun. injection Hrun as <-. repeat split. constructor.
    + cbn [parseLoop] in Hrun.
      destruct ((arg =? "--help")%string || (arg =? "-h")%string); [discriminate|].
      destruct ((arg =? "--version")%string || (arg =? "-v")%string); [discriminate|].
      destruct ((arg =? "--path")%string || (arg =? "-p")%string) eqn:Ep;
        [|discriminate].
      destruct rest as [|value rest]; [discriminate|].
      destruct (IH rest (Some value) path) as (pairs & -> & Hall & ->);
        [cbn in Hlen; lia | exact Hrun |].
      exists ((arg, value) :: pairs). split; [reflexivity|]. split.
      * constructor; [|exact Hall]. cbn.
        apply orb_true_iff in Ep as [E|E]; apply String.eqb_eq in E;
          [left | right]; exact E.
      * rewrite lastPath_cons. reflexivity.
Qed.

End CommandLine.

(** X21. [parseArgs] returns a result, rather than leaving the process,
    exactly for a command line that consists of pairs of [--path] or [-p]
    and a value.  Any word is taken as the value, also one that reads
    like an option; the path of the result is the value of the last
    pair, and there is none exactly when there are no arguments. *)
Theorem parseArgs_returns_iff :
  forall argv path,
    parseArgs argv = Parsed path <->
    exists pairs,
      drop 2 argv = optionPairs pairs
      /\ Forall (fun p => isPathOption (fst p)) pairs
      /\ path = snd <$> last pairs.
Proof.
  intros argv path. unfold parseArgs. split.
  - intros Hrun.
    destruct (parseLoop_parsed_pairs (length (drop 2 argv)) _ _ _ (le_n _) Hrun)
      as (pairs & E & Hall & ->).
    exists pairs. split; [exact E|]. split; [exact Hall|].
    unfold lastPath. destruct (last pairs); reflexivity.
  - intros (pairs & -> & Hall & ->).
    rewrite (parseLoop_optionPairs _ _ Hall). unfold lastPath.
    destruct (last pairs); reflexivity.
Qed.

Example parseArgs_option_as_value :
  parseArgs ["bun"; "index.tsx"; "-p"; "--help"] = Parsed (Some "--help").
Proof. reflexivity. Qed.

Example parseArgs_help_wins :
  parseArgs ["bun"; "index.tsx"; "--help"; "--bogus"] = ShowHelp.
Proof. reflexivity. Qed.

(* --------------------------------------------------------------------- *)
(** ** The diff pane *)

Import DiffPane.

(** X22. [loadContent] of the diff pane never throws, whatever the file
    system, the binary check and git do.  After it the pane holds a file
    content or a raw diff, never both, and neither for a file found to be
    binary; the raw diff is only ever filled for a status other than
    new and unchanged, the file content only for these two.  A load
    without the loading indicator (the polling one) leaves the indicator
    as it was, and a load with it, of a named file, ends with the
    indicator off. *)
Theorem loadContent_exclusive :
  forall h t isBinaryFile filename status repoPath showLoading s,
  exists s',
    loadContent h t isBinaryFile filename status repoPath showLoading s = Ret s'
    /\ (fileContent s' = "" \/ rawDiff s' = "")
    /\ (isBinary s' = true -> fileContent s' = "" /\ rawDiff s' = "")
    /\ (fileContent s' <> "" -> showsContent status = true)
    /\ (rawDiff s' <> rawDiff s -> rawDiff s' <> "" -> showsContent status = false)
    /\ (showLoading = false -> loading s' = loading s)
    /\ (showLoading = true -> truthy (orDefault filename "") = true ->
        loading s' = false).
Proof.
  intros h t isBinaryFile filename status repoPath showLoading s.
  unfold loadContent.
  destruct (truthy (orDefault filename "")) eqn:Ename; cbn [negb].
  2:{ eexists. split; [reflexivity|]. cbn.
      split; [left; reflexivity|]. split; [discriminate|].
      split; [congruence|]. split; [congruence|]. split; [reflexivity|].
      discriminate. }
  destruct (showsContent status) eqn:Estatus.
  - set (absPath := if path_isAbsolute h (orDefault filename "") then _ else _).
    destruct (fs_readFile t absPath) as [content|e]; cbn.
    + destruct (isBinaryFile absPath) as [[|]|e]; cbn;
        (eexists; split; [reflexivity|]);
        destruct showLoading; cbn; intuition (congruence || auto).
    + eexists; split; [reflexivity|].
      destruct showLoading; cbn; intuition (congruence || auto).
  - unfold getRawDiff.
    destruct (simpleGit h) as [[]|e]; cbn.
    + destruct (git_diff t _) as [diff|e]; cbn;
        (eexists; split; [reflexivity|]);
        destruct showLoading; cbn; intuition (congruence || auto).
    + eexists; split; [reflexivity|].
      destruct showLoading; cbn; intuition (congruence || auto).
Qed.
